(** * Wordle+ : validation, storage, deep links, scoring, statistics

    A shallow embedding of the parts of the Wordle+ sources that the
    specification talks about, and the properties proved of them.

    - [Validation], [Validation2]  embed [src/validation.ts]
    - [LocalStorage], [LocalStorage2] embed [src/localStorage.ts]
    - [App], [Startup] embed the script of [App.svelte]
    - [Analytics]   embeds [src/analytics.ts]
    - [MonitoringConfig] embeds the analytics section of
      [src/monitoringConfig.ts]
    - [Scorer], [Game], [Statistics] follow the specification for the
      game logic of [utils.ts], which is not among the sources.

    The first half of the file holds the definitions, the second half
    the lemmas and theorems. *)

From Stdlib Require Import PrimFloat Ascii String ZArith QArith Qround.
From Stdlib Require FloatAxioms FloatOps SpecFloat Uint63.
From stdpp Require Import gmap strings list gmultiset pretty.

Local Open Scope string_scope.
Local Open Scope nat_scope.
Local Open Scope list_scope.
Set Warnings "-register-all".
Set Default Proof Using "Type".

(* ================================================================= *)
(** * Part I : definitions *)
(* ================================================================= *)

(** ** JavaScript values and completions *)

(** The values [JSON.parse] can build, plus [undefined] (what reading a
    missing property gives). A number is an IEEE-754 double, as in
    JavaScript. A string is a [string]: one character per code unit,
    restricted to the code units below 256 (every string literal of the
    sources is ASCII). An object is the list of its own properties. *)
Inductive JValue : Type :=
  | JUndefined
  | JNull
  | JBool (b : bool)
  | JNum (x : float)
  | JStr (s : string)
  | JArr (items : list JValue)
  | JObj (fields : list (string * JValue)).

(** How a function body ends: normally with a value, or by throwing. *)
Inductive completion (A : Type) : Type :=
  | Normal (a : A)
  | Throw (e : string).
Arguments Normal {A} a.
Arguments Throw {A} e.

#[global] Instance completion_ret : MRet completion := fun A a => Normal a.

#[global] Instance completion_bind : MBind completion := fun A B k c =>
  match c with
  | Normal a => k a
  | Throw e => Throw e
  end.

(** [try { body } catch (e) { handler }] *)
Definition try_catch {A} (body : completion A) (handler : string -> completion A)
  : completion A :=
  match body with
  | Normal a => Normal a
  | Throw e => handler e
  end.

(** [obj.key] on a value: the own property when there is one, otherwise
    [undefined]. The sources only read properties of values that have
    passed [isObject]. *)
Fixpoint assoc (k : string) (fs : list (string * JValue)) : JValue :=
  match fs with
  | [] => JUndefined
  | (k', v) :: fs' => if String.eqb k k' then v else assoc k fs'
  end.

Definition prop (v : JValue) (k : string) : JValue :=
  match v with
  | JObj fs => assoc k fs
  | _ => JUndefined
  end.

(** ** src/validation.ts *)

Module Validation.

Definition isString (value : JValue) : bool :=
  match value with JStr _ => true | _ => false end.

(** [typeof value === "number" && !isNaN(value)] *)
Definition isNumber (value : JValue) : bool :=
  match value with JNum x => negb (PrimFloat.is_nan x) | _ => false end.

Definition isBoolean (value : JValue) : bool :=
  match value with JBool _ => true | _ => false end.

(** [typeof value === "object" && value !== null && !Array.isArray(value)] *)
Definition isObject (value : JValue) : bool :=
  match value with JObj _ => true | _ => false end.

Definition isArray (value : JValue) : bool :=
  match value with JArr _ => true | _ => false end.

(** [value >= c] and [value <= c] for a value that has passed
    [isNumber]; the sources only compare behind that test. *)
Definition num_ge (value : JValue) (c : float) : bool :=
  match value with JNum x => PrimFloat.leb c x | _ => false end.

Definition num_le (value : JValue) (c : float) : bool :=
  match value with JNum x => PrimFloat.leb x c | _ => false end.

Definition isValidGameMode (value : JValue) : bool :=
  isNumber value && num_ge value 0 && num_le value 2.

(** The character class [[a-zA-Z]]. *)
Definition in_a_zA_Z (c : ascii) : bool :=
  let n := nat_of_ascii c in
  ((97 <=? n)%nat && (n <=? 122)%nat) || ((65 <=? n)%nat && (n <=? 90)%nat).

(** [^[a-zA-Z]{n}$]: the whole string is [n] characters of the class.
    Without the [m] flag, [$] only matches at the very end. *)
Fixpoint match_letters (n : nat) (s : string) : bool :=
  match n, s with
  | O, EmptyString => true
  | S n', String c s' => in_a_zA_Z c && match_letters n' s'
  | _, _ => false
  end.

Definition isValidWord (word : JValue) : bool :=
  match word with
  | JStr w => match_letters 5 w
  | _ => false
  end.

Definition isValidGameState (value : JValue) : bool :=
  if negb (isObject value) then false
  else
    let active := prop value "active" in
    let guesses := prop value "guesses" in
    let validHard := prop value "validHard" in
    let time := prop value "time" in
    let wordNumber := prop value "wordNumber" in
    let board := prop value "board" in
    isBoolean active &&
    isNumber guesses &&
    num_ge guesses 0 &&
    num_le guesses 6 &&
    isBoolean validHard &&
    isNumber time &&
    isNumber wordNumber &&
    isObject board &&
    isArray (prop board "words") &&
    isArray (prop board "state").

(** [parseJSON(json, validator, fallback)]. [JSON_parse] is the
    built-in [JSON.parse]: it returns a value or throws a SyntaxError.
    The validator is any callback, so it may throw as well. *)
Definition parseJSON (JSON_parse : string -> completion JValue)
    (json : string) (validator : JValue -> completion bool)
    (fallback : JValue) : completion JValue :=
  try_catch
    (parsed ← JSON_parse json;
     validator parsed ≫= λ ok : bool,
     mret (if ok then parsed else fallback))
    (fun _ => Normal fallback).

End Validation.

(** ** src/localStorage.ts *)

Module LocalStorage.

(** The browser's [localStorage]: the stored items, and when an access
    throws (storage disabled, quota exceeded, ...). The two oracles see
    the items and the arguments of the call. *)
Record Storage : Type := mkStorage {
  items : gmap string string;
  getItem_throws : gmap string string -> string -> bool;
  setItem_throws : gmap string string -> string -> string -> bool
}.

(** [localStorage.getItem(key)]: the stored string, or [null]. *)
Definition getItem (ls : Storage) (key : string) : completion (option string) :=
  if getItem_throws ls (items ls) key then Throw "getItem"
  else Normal (items ls !! key).

(** [localStorage.setItem(key, value)]; a call that throws stores
    nothing. *)
Definition setItem (ls : Storage) (key value : string) : completion Storage :=
  if setItem_throws ls (items ls) key value then Throw "setItem"
  else Normal (mkStorage (<[key := value]> (items ls))
                         (getItem_throws ls) (setItem_throws ls)).

(** White space and line terminators, which [String.prototype.trim]
    strips, among the code units below 256. *)
Definition is_space (c : ascii) : bool :=
  let n := nat_of_ascii c in
  ((9 <=? n)%nat && (n <=? 13)%nat) || (n =? 32)%nat || (n =? 160)%nat.

Fixpoint drop_spaces (l : list ascii) : list ascii :=
  match l with
  | c :: l' => if is_space c then drop_spaces l' else l
  | [] => []
  end.

Definition trim (s : string) : string :=
  string_of_list_ascii
    (rev (drop_spaces (rev (drop_spaces (list_ascii_of_string s))))).

(** [!isString(key) || key.trim() === ""] *)
Definition invalid_key (key : JValue) : bool :=
  match key with
  | JStr k => String.eqb (trim k) ""
  | _ => true
  end.

(** The string behind a value that has passed [isString]. *)
Definition str (v : JValue) : string :=
  match v with JStr s => s | _ => "" end.

(** [safeGetItem(key, fallback = null)]; the console output is left
    out. *)
Definition safeGetItem (ls : Storage) (key : JValue) (fallback : option string)
  : completion (option string) :=
  if invalid_key key then mret fallback
  else
    try_catch
      (value ← getItem ls (str key);
       mret (match value with Some v => Some v | None => fallback end))
      (fun _ => mret fallback).

(** [safeSetItem(key, value)]: the flag returned and the storage
    afterwards. The file holds a second revision that stores
    [String(value)] instead of testing [isString(value)]; on the string
    values the script passes, the two agree. *)
Definition safeSetItem (ls : Storage) (key value : JValue)
  : completion (bool * Storage) :=
  if invalid_key key then mret (false, ls)
  else if negb (Validation.isString value) then mret (false, ls)
  else
    try_catch
      (ls' ← setItem ls (str key) (str value);
       mret (true, ls'))
      (fun _ => mret (false, ls)).

End LocalStorage.

(** ** App.svelte (the component script) *)

Module App.

Import LocalStorage.

(** [enum GameMode { daily, hourly, infinite }], numbered from 0. *)
Inductive GameMode : Type := daily | hourly | infinite.

Definition mode_number (m : GameMode) : nat :=
  match m with daily => 0 | hourly => 1 | infinite => 2 end.

(** One entry of [modeData.modes], with the fields the script uses.
    [unit_] is the source's [unit]. Time stamps, units and seeds are
    integral numbers far inside the safe-integer range: integers. *)
Record Mode : Type := mkMode {
  unit_ : Z;
  start : Z;
  seed : Z;
  historical : bool
}.

Record ModeData : Type := mkModeData {
  default : GameMode;
  modes : list Mode
}.

(** [modeData.modes[m]]: reading a field of a missing entry throws a
    TypeError. *)
Definition mode_entry (md : ModeData) (m : GameMode) : completion Mode :=
  match modes md !! mode_number m with
  | Some mo => Normal mo
  | None => Throw "TypeError"
  end.

(** Modelled from the spec: [seededRandomInt] of utils.ts, which is not
    among the sources. Section 4.2: each call re-seeds the generator
    from the given integer, takes one draw in [0,1) and scales it to the
    range. [rng seed] is that first draw. *)
Definition seededRandomInt (rng : Z -> Q) (min max seed : Z) : Z :=
  Qfloor (inject_Z min + inject_Z (max - min) * rng seed)%Q.

(** [arr[i]] for a number [i]: [undefined] outside the array. *)
Definition js_index {A} (arr : list A) (i : Z) : option A :=
  if (i <? 0)%Z then None else arr !! Z.to_nat i.

(** [words.words[seededRandomInt(0, words.words.length, seed)]] *)
Definition wordAt (rng : Z -> Q) (words : list string) (seed : Z) : option string :=
  js_index words (seededRandomInt rng 0 (Z.of_nat (length words)) seed).

(** The storage keys, built by template literals. *)
Definition stats_key (m : GameMode) : string := "stats-" +:+ pretty (mode_number m).
Definition state_key (m : GameMode) : string := "state-" +:+ pretty (mode_number m).
Definition state_key_h (m : GameMode) : string :=
  "state-" +:+ pretty (mode_number m) +:+ "-h".

(** What the [mode.subscribe] callback computes. [Stats] and [GameState]
    are classes of utils.ts: the callback's results are the arguments it
    passes to their constructors. *)
Record Loaded : Type := mkLoaded {
  stats_arg : string + GameMode;
  word : option string;
  state_arg : option string
}.

(** [a || b] on a [string | null]: the empty string is falsy too. *)
Definition or_else (a : option string) (m : GameMode) : string + GameMode :=
  match a with
  | Some s => if String.eqb s "" then inr m else inl s
  | None => inr m
  end.

Definition subscribe (rng : Z -> Q) (words : list string) (md : ModeData)
    (ls : Storage) (m : GameMode) : completion (Loaded * Storage) :=
  '(_, ls1) ← safeSetItem ls (JStr "mode") (JStr (pretty (mode_number m)));
  raw_stats ← safeGetItem ls1 (JStr (stats_key m)) None;
  mo ← mode_entry md m;
  let w := wordAt rng words (seed mo) in
  raw_state ←
    (if historical mo then safeGetItem ls1 (JStr (state_key_h m)) None
     else safeGetItem ls1 (JStr (state_key m)) None);
  mret (mkLoaded (or_else raw_stats m) w raw_state, ls1).

(** [saveState(state)], with [blob] the string [state.toString()] and
    [m] the value of the [mode] store. *)
Definition saveState (md : ModeData) (m : GameMode) (blob : string) (ls : Storage)
  : completion (bool * Storage) :=
  mo ← mode_entry md m;
  if historical mo then safeSetItem ls (JStr (state_key_h m)) (JStr blob)
  else safeSetItem ls (JStr (state_key m)) (JStr blob).

End App.

(** ** The guess scorer (specification, section 4.3) *)

Module Scorer.

Inductive LetterState : Type := Correct | Present | Absent.

(** Modelled from the spec: pass 1 of the scorer of utils.ts, which is
    not among the sources. For each position, a letter of the guess that
    equals the target's letter there is marked [Correct] and taken out
    of the remaining-count table; the other positions stay unmarked. *)
Fixpoint pass1 (guess target : list ascii) (table : gmultiset ascii)
  : list (option LetterState) * gmultiset ascii :=
  match guess, target with
  | g :: guess', t :: target' =>
      if decide (g = t) then
        let '(marks, table') := pass1 guess' target' (table ∖ {[+ g +]}) in
        (Some Correct :: marks, table')
      else
        let '(marks, table') := pass1 guess' target' table in
        (None :: marks, table')
  | _, _ => ([], table)
  end.

(** Modelled from the spec: pass 2 of the scorer. A position not already
    [Correct] is [Present] when its letter still has a positive count in
    the table, which then loses one; otherwise it is [Absent]. *)
Fixpoint pass2 (guess : list ascii) (marks : list (option LetterState))
    (table : gmultiset ascii) : list LetterState :=
  match guess, marks with
  | g :: guess', Some s :: marks' => s :: pass2 guess' marks' table
  | g :: guess', None :: marks' =>
      if decide (0 < multiplicity g table) then
        Present :: pass2 guess' marks' (table ∖ {[+ g +]})
      else Absent :: pass2 guess' marks' table
  | _, _ => []
  end.

(** Modelled from the spec: [score(guess, target)], the two passes over
    a table initialised from the target's letter multiset. *)
Definition score_letters (guess target : list ascii) : list LetterState :=
  let '(marks, table) := pass1 guess target (list_to_set_disj target) in
  pass2 guess marks table.

Definition score (guess target : string) : list LetterState :=
  score_letters (list_ascii_of_string guess) (list_ascii_of_string target).

(** The number of positions where the guess has letter [c] and the mark
    is [Correct] or [Present]. *)
Fixpoint marked (c : ascii) (guess : list ascii) (states : list LetterState) : nat :=
  match guess, states with
  | g :: guess', s :: states' =>
      (if decide (g = c) then
         match s with Absent => 0 | _ => 1 end
       else 0) + marked c guess' states'
  | _, _ => 0
  end.

(** The number of positions where the guess has letter [c] and pass 1
    has left a mark. *)
Fixpoint premarked (c : ascii) (guess : list ascii) (marks : list (option LetterState))
  : nat :=
  match guess, marks with
  | g :: guess', mk :: marks' =>
      (if decide (g = c) then
         match mk with Some Absent | None => 0 | Some _ => 1 end
       else 0) + premarked c guess' marks'
  | _, _ => 0
  end.

(** The number of occurrences of [c] in a word. *)
Definition occurrences (c : ascii) (w : list ascii) : nat :=
  length (filter (λ x, x = c) w).

End Scorer.

(** ** The game state machine (specification, section 4.4) *)

Module Game.

Import Scorer.

Inductive Status : Type := InProgress | Won | Lost.

Inductive Error : Type := InvalidWord | GameOver | HardModeViolation.

(** Modelled from the spec: the GameState of utils.ts, which is not
    among the sources, with the attributes of section 3. The guess count
    is the length of [guesses]; [board] holds the states of each
    submitted guess. *)
Record GameState : Type := mkGameState {
  status : Status;
  guesses : list string;
  board : list (list LetterState);
  validHard : bool;
  time : Z;
  wordNumber : Z
}.

Definition fresh (wordNumber : Z) : GameState :=
  mkGameState InProgress [] [] true 0 wordNumber.

Definition guessCount (st : GameState) : nat := length (guesses st).

Definition maxGuesses : nat := 6.

(** Modelled from the spec: one earlier row against a new guess in hard
    mode. A letter revealed [Correct] must be reused in the same
    position; a letter revealed [Present] must occur somewhere in the
    guess. [rest] is the guess from the current position on. *)
Fixpoint row_respected (guess rest old : list ascii) (states : list LetterState) : bool :=
  match old, states with
  | c :: old', s :: states' =>
      match s with
      | Correct => match rest with c' :: _ => bool_decide (c' = c) | [] => false end
      | Present => bool_decide (c ∈ guess)
      | Absent => true
      end && row_respected guess (tail rest) old' states'
  | _, _ => true
  end.

Definition violatesHard (st : GameState) (guess : string) : bool :=
  let g := list_ascii_of_string guess in
  negb (forallb (λ '(w, states), row_respected g g (list_ascii_of_string w) states)
          (zip (guesses st) (board st))).

Definition eq_string (a b : string) : bool := String.eqb a b.

(** Modelled from the spec: [submitGuess(state, guess)]. [accepted] is
    the catalog's accepted-guess set, [hard] whether hard mode is
    enforced. The five-letter test is [isValidWord] of validation.ts. *)
Definition submitGuess (accepted : string -> bool) (hard : bool) (target : string)
    (st : GameState) (guess : string) : Error + GameState :=
  if negb (Validation.isValidWord (JStr guess) && accepted guess) then inl InvalidWord
  else
    match status st with
    | Won | Lost => inl GameOver
    | InProgress =>
        let violation := violatesHard st guess in
        if hard && violation then inl HardModeViolation
        else
          let count := S (guessCount st) in
          inr (mkGameState
                 (if eq_string guess target then Won
                  else if (maxGuesses <=? count)%nat then Lost
                  else InProgress)
                 (guesses st ++ [guess])
                 (board st ++ [score guess target])
                 (validHard st && negb violation)
                 (time st)
                 (wordNumber st))
    end.

(** The states a game can be in: a fresh state, and what successful
    submissions make of it. *)
Inductive reachable (accepted : string -> bool) (hard : bool) (target : string)
  : GameState -> Prop :=
  | reach_fresh : ∀ n, reachable accepted hard target (fresh n)
  | reach_submit : ∀ st guess st',
      reachable accepted hard target st ->
      submitGuess accepted hard target st guess = inr st' ->
      reachable accepted hard target st'.

(** Submitting a list of guesses in order; a rejected guess leaves the
    state as it was. *)
Definition play (accepted : string -> bool) (hard : bool) (target : string)
    (st : GameState) (attempts : list string) : GameState :=
  foldl (λ s g, match submitGuess accepted hard target s g with
                | inr s' => s'
                | inl _ => s
                end) st attempts.

(** What holds of a game in each status. *)
Definition status_invariant (target : string) (st : GameState) : Prop :=
  length (board st) = length (guesses st) ∧
  match status st with
  | InProgress => guessCount st < maxGuesses ∧ target ∉ guesses st
  | Won => guessCount st ≤ maxGuesses ∧ last (guesses st) = Some target
  | Lost => guessCount st = maxGuesses ∧ target ∉ guesses st
  end.

End Game.

(** ** The statistics aggregator (specification, section 4.5) *)

Module Statistics.

(** Modelled from the spec: the Stats of utils.ts, which is not among
    the sources, with the attributes of section 3: [wins] maps a guess
    count to the number of games won in that many guesses. *)
Record Stats : Type := mkStats {
  played : nat;
  lastGame : Z;
  wins : gmap nat nat;
  fail : nat;
  streak : nat;
  maxStreak : nat
}.

Inductive Outcome : Type := WonIn (guessCount : nat) | LostGame.

Definition bump (n : nat) (m : gmap nat nat) : gmap nat nat :=
  <[n := S (default 0 (m !! n))]> m.

(** Modelled from the spec: [recordResult(stats, wordNumber, outcome)].
    A word number not above [lastGame] is already recorded; a new result
    counts the game, its bucket and the streaks, and becomes
    [lastGame]. *)
Definition recordResult (stats : Stats) (wordNumber : Z) (outcome : Outcome) : Stats :=
  if (wordNumber <=? lastGame stats)%Z then stats
  else
    match outcome with
    | WonIn n =>
        let s := S (streak stats) in
        mkStats (S (played stats)) wordNumber (bump n (wins stats)) (fail stats)
                s (Nat.max (maxStreak stats) s)
    | LostGame =>
        mkStats (S (played stats)) wordNumber (wins stats) (S (fail stats))
                0 (Nat.max (maxStreak stats) 0)
    end.

End Statistics.

(** ** The specification's wording of the validators *)

Module Shape.

(** A number in the sense of the validators: a double that is not NaN. *)
Definition numeric (v : JValue) (x : float) : Prop :=
  v = JNum x ∧ PrimFloat.is_nan x = false.

(** The persisted GameState as the specification words it: an object
    with a boolean [active], a numeric [guesses] in [0,6], a boolean
    [validHard], a numeric [time], a numeric [wordNumber], and a [board]
    object whose [words] and [state] are arrays. *)
Definition GameStateShape (v : JValue) : Prop :=
  ∃ fs, v = JObj fs ∧
    (∃ b, assoc "active" fs = JBool b) ∧
    (∃ g, numeric (assoc "guesses" fs) g ∧
          PrimFloat.leb 0 g = true ∧ PrimFloat.leb g 6 = true) ∧
    (∃ b, assoc "validHard" fs = JBool b) ∧
    (∃ t, numeric (assoc "time" fs) t) ∧
    (∃ n, numeric (assoc "wordNumber" fs) n) ∧
    (∃ bs ws ss, assoc "board" fs = JObj bs ∧
                 assoc "words" bs = JArr ws ∧ assoc "state" bs = JArr ss).

(** A letter A-Z, in either case. *)
Definition is_letter (c : ascii) : Prop :=
  (nat_of_ascii "A" ≤ nat_of_ascii c ≤ nat_of_ascii "Z")%nat ∨
  (nat_of_ascii "a" ≤ nat_of_ascii c ≤ nat_of_ascii "z")%nat.

(** A string of exactly five letters. *)
Definition five_letters (s : string) : Prop :=
  String.length s = 5 ∧ Forall is_letter (list_ascii_of_string s).

End Shape.

(** ** Sample data for the examples *)

Module Samples.

Import App LocalStorage.

(** A persisted GameState after three guesses, as [JSON.parse] returns
    it. *)
Definition savedGame : JValue :=
  JObj [("active", JBool true); ("guesses", JNum 3); ("validHard", JBool true);
        ("time", JNum 0); ("wordNumber", JNum 12);
        ("board", JObj [("words", JArr [JStr "erase"; JStr "speed"; JStr "steed"]);
                        ("state", JArr [])])].

Definition savedGameBlob : string := "{saved game}".

(** [JSON.parse] on two inputs: the blob of [savedGame], and text that is
    not JSON. *)
Definition parseSample (json : string) : completion JValue :=
  if String.eqb json savedGameBlob then Normal savedGame
  else Throw "SyntaxError".

(** Three modes: a day, an hour and a second long. *)
Definition modeData : ModeData :=
  mkModeData daily
    [mkMode 86400000 1642370400000 1699999200000 false;
     mkMode 3600000 1642528800000 1699999200000 false;
     mkMode 1000 1642428600000 1700000000000 false].

(** A storage that never throws, holding a daily game. *)
Definition storage : Storage :=
  mkStorage {[ "state-0" := "today" ]} (λ _ _, false) (λ _ _ _, false).

(** A storage whose every access throws. *)
Definition brokenStorage : Storage :=
  mkStorage ∅ (λ _ _, true) (λ _ _ _, true).

End Samples.

(** ** src/validation.ts, the remaining validators and conversions *)

Module Validation2.

Import Validation.

(** [hard.every((v) => isBoolean(v))], on a value that has passed
    [isArray]. *)
Definition every_isBoolean (hard : JValue) : bool :=
  match hard with JArr l => forallb isBoolean l | _ => false end.

Definition isValidSettings (value : JValue) : bool :=
  if negb (isObject value) then false
  else
    let hard := prop value "hard" in
    let dark := prop value "dark" in
    let colorblind := prop value "colorblind" in
    let tutorial := prop value "tutorial" in
    isArray hard &&
    every_isBoolean hard &&
    isBoolean dark &&
    isBoolean colorblind &&
    isNumber tutorial &&
    num_ge tutorial 0 &&
    num_le tutorial 3.

(** [value !== undefined] *)
Definition is_defined (value : JValue) : bool :=
  match value with JUndefined => false | _ => true end.

Definition isValidStats (value : JValue) : bool :=
  if negb (isObject value) then false
  else
    let played := prop value "played" in
    let lastGame := prop value "lastGame" in
    let guesses := prop value "guesses" in
    let streak := prop value "streak" in
    let maxStreak := prop value "maxStreak" in
    if negb (isNumber played) || negb (isNumber lastGame) || negb (isObject guesses)
    then false
    else
      let validGuesses :=
        isNumber (prop guesses "fail") &&
        isNumber (prop guesses "1") &&
        isNumber (prop guesses "2") &&
        isNumber (prop guesses "3") &&
        isNumber (prop guesses "4") &&
        isNumber (prop guesses "5") &&
        isNumber (prop guesses "6") in
      if negb validGuesses then false
      else if is_defined streak && negb (isNumber streak) then false
      else if is_defined maxStreak && negb (isNumber maxStreak) then false
      else true.

(** [toUpperCase] on one code unit of a string of ASCII letters, which
    is all [sanitizeWordInput] applies it to. *)
Definition upper_letter (c : ascii) : ascii :=
  let n := nat_of_ascii c in
  if (97 <=? n) && (n <=? 122) then ascii_of_nat (n - 32) else c.

(** [input.replace(/[^a-zA-Z]/g, "").toUpperCase()] *)
Definition sanitizeWordInput (input : JValue) : string :=
  match input with
  | JStr s =>
      string_of_list_ascii
        (map upper_letter (filter (λ c, in_a_zA_Z c = true) (list_ascii_of_string s)))
  | _ => ""
  end.

(** [toLowerCase] on one code unit below 256: A-Z and the capital
    letters of Latin-1 (192-222 but for the sign at 215) move up by
    32. *)
Definition lower_unit (c : ascii) : ascii :=
  let n := nat_of_ascii c in
  if ((65 <=? n) && (n <=? 90)) ||
     ((192 <=? n) && (n <=? 222) && negb (n =? 215))
  then ascii_of_nat (n + 32) else c.

Definition toLowerCase (s : string) : string :=
  string_of_list_ascii (map lower_unit (list_ascii_of_string s)).

(** [Boolean(value)]: [undefined], [null], [false], [0], [-0], [NaN] and
    the empty string are falsy; everything else is truthy. *)
Definition truthy (value : JValue) : bool :=
  match value with
  | JUndefined | JNull => false
  | JBool b => b
  | JNum x => negb (PrimFloat.is_nan x || PrimFloat.is_zero x)
  | JStr s => negb (String.eqb s "")
  | JArr _ | JObj _ => true
  end.

Definition toBoolean (value : JValue) : bool :=
  match value with
  | JBool b => b
  | JStr s => String.eqb (toLowerCase s) "true"
  | _ => truthy value
  end.

(** [Math.max(a, b)]: NaN when either is; of two zeros, the positive
    one. *)
Definition Math_max (a b : float) : float :=
  if PrimFloat.is_nan a || PrimFloat.is_nan b then PrimFloat.nan
  else if PrimFloat.ltb a b then b
  else if PrimFloat.ltb b a then a
  else if PrimFloat.get_sign a then b else a.

(** [Math.min(a, b)]: NaN when either is; of two zeros, the negative
    one. *)
Definition Math_min (a b : float) : float :=
  if PrimFloat.is_nan a || PrimFloat.is_nan b then PrimFloat.nan
  else if PrimFloat.ltb a b then a
  else if PrimFloat.ltb b a then b
  else if PrimFloat.get_sign a then a else b.

Definition clamp (value min max : float) : float :=
  Math_min (Math_max value min) max.

End Validation2.

(** ** src/localStorage.ts, the remaining operations *)

Module LocalStorage2.

Import LocalStorage.

(** When [removeItem] and [clear] throw. *)
Record Faults : Type := mkFaults {
  removeItem_throws : gmap string string -> string -> bool;
  clear_throws : gmap string string -> bool
}.

(** [localStorage.removeItem(key)] *)
Definition removeItem (f : Faults) (ls : Storage) (key : string) : completion Storage :=
  if removeItem_throws f (items ls) key then Throw "removeItem"
  else Normal (mkStorage (delete key (items ls))
                         (getItem_throws ls) (setItem_throws ls)).

(** [localStorage.clear()] *)
Definition clear (f : Faults) (ls : Storage) : completion Storage :=
  if clear_throws f (items ls) then Throw "clear"
  else Normal (mkStorage ∅ (getItem_throws ls) (setItem_throws ls)).

Definition safeRemoveItem (f : Faults) (ls : Storage) (key : JValue)
  : completion (bool * Storage) :=
  if invalid_key key then mret (false, ls)
  else
    try_catch
      (ls' ← removeItem f ls (str key);
       mret (true, ls'))
      (fun _ => mret (false, ls)).

Definition safeClear (f : Faults) (ls : Storage) : completion (bool * Storage) :=
  try_catch
    (ls' ← clear f ls;
     mret (true, ls'))
    (fun _ => mret (false, ls)).

(** [safeGetJSON(key, fallback)], the first revision in the file:
    [JSON.parse(value) as T], or the fallback. *)
Definition safeGetJSON (JSON_parse : string -> completion JValue) (ls : Storage)
    (key : JValue) (fallback : JValue) : completion JValue :=
  if invalid_key key then mret fallback
  else
    try_catch
      (value ← getItem ls (str key);
       match value with
       | None => mret fallback
       | Some s => JSON_parse s
       end)
      (fun _ => mret fallback).

(** [safeGetJSON(key, validator?)], the second revision in the file:
    the parsed value, or [null]. *)
Definition safeGetJSON_validated (JSON_parse : string -> completion JValue)
    (ls : Storage) (key : JValue) (validator : option (JValue -> completion bool))
  : completion JValue :=
  if invalid_key key then mret JNull
  else
    try_catch
      (value ← getItem ls (str key);
       match value with
       | None => mret JNull
       | Some s =>
           parsed ← JSON_parse s;
           match validator with
           | Some check =>
               check parsed ≫= λ ok : bool,
               mret (if ok then parsed else JNull)
           | None => mret parsed
           end
       end)
      (fun _ => mret JNull).

(** [safeSetJSON(key, value)]. [JSON_stringify] is the built-in
    [JSON.stringify]: a string, [undefined] (for a value with no JSON
    form), or an exception. [setItem] stores [undefined] as the string
    "undefined". *)
Definition safeSetJSON (JSON_stringify : JValue -> completion (option string))
    (ls : Storage) (key : JValue) (value : JValue) : completion (bool * Storage) :=
  if invalid_key key then mret (false, ls)
  else
    try_catch
      (s ← JSON_stringify value;
       ls' ← setItem ls (str key) (default "undefined" s);
       mret (true, ls'))
      (fun _ => mret (false, ls)).

End LocalStorage2.

(** ** src/analytics.ts *)

Module Analytics.

Import LocalStorage Validation2.

Definition CONSENT_KEY : string := "analytics-consent".
Definition CONFIG_KEY : string := "analytics-config".

(** The [src] of a script element of the page: none (an inline script),
    a fixed address, or the gtag address, which ends in the tracking id
    the template literal interpolates. *)
Inductive ScriptSrc : Type :=
  | Inline
  | Url (address : string)
  | GtagUrl (id : JValue).

(** A script element: its [src] and the other properties the module
    assigns ([defer], [async], the [dataset] entries). *)
Record Script : Type := mkScript {
  src : ScriptSrc;
  assigned : list (string * JValue)
}.

(** A call to one of the providers' functions on [window]. *)
Inductive Call : Type :=
  | PlausibleCall (name : string) (options : list (string * JValue))
  | FathomPageview (url : string)
  | FathomGoal (name : string)
  | GtagJs
  | GtagConfig (id : JValue) (options : list (string * JValue))
  | GtagEvent (name : string) (properties : list (string * JValue)).

(** The module's variables ([config], an object, and [consentGiven])
    and what it reaches in the browser: the storage, the script elements
    of the document, whether [window.plausible], [window.fathom] and
    [window.gtag] are set, and the calls made to them so far. The
    providers' functions are taken not to throw. *)
Record World : Type := mkWorld {
  config : list (string * JValue);
  consentGiven : bool;
  storage : Storage;
  scripts : list Script;
  plausible : bool;
  fathom : bool;
  gtag : bool;
  calls : list Call
}.

(** The initial value of [config]. *)
Definition defaultConfig : list (string * JValue) :=
  [("enabled", JBool false); ("provider", JStr "none");
   ("respectDNT", JBool true); ("anonymizeIP", JBool true)].

(** [navigator.doNotTrack], [window.doNotTrack], [navigator.msDoNotTrack]
    and [window.location.pathname]. *)
Record Navigator : Type := mkNavigator {
  doNotTrack : JValue;
  windowDoNotTrack : JValue;
  msDoNotTrack : JValue;
  pathname : string
}.

(** [v === '1'] *)
Definition is_one (v : JValue) : bool :=
  match v with JStr s => String.eqb s "1" | _ => false end.

Definition isDNTEnabled (nav : Navigator) : bool :=
  is_one (doNotTrack nav) || is_one (windowDoNotTrack nav) || is_one (msDoNotTrack nav).

(** The own enumerable properties [{...v}] copies: the fields of an
    object, the indexed elements of an array or a string, nothing for
    the other values. *)
Definition indexed {A} (f : A -> JValue) (l : list A) : list (string * JValue) :=
  imap (λ i x, (pretty i, f x)) l.

Definition spread (v : JValue) : list (string * JValue) :=
  match v with
  | JObj fs => fs
  | JArr l => indexed id l
  | JStr s => indexed (λ c, JStr (String c "")) (list_ascii_of_string s)
  | _ => []
  end.

Definition set_config (w : World) (c : list (string * JValue)) : World :=
  mkWorld c (consentGiven w) (storage w) (scripts w)
          (plausible w) (fathom w) (gtag w) (calls w).

Definition set_consent (w : World) (b : bool) : World :=
  mkWorld (config w) b (storage w) (scripts w)
          (plausible w) (fathom w) (gtag w) (calls w).

Definition set_storage (w : World) (ls : Storage) : World :=
  mkWorld (config w) (consentGiven w) ls (scripts w)
          (plausible w) (fathom w) (gtag w) (calls w).

Definition set_scripts (w : World) (l : list Script) : World :=
  mkWorld (config w) (consentGiven w) (storage w) l
          (plausible w) (fathom w) (gtag w) (calls w).

(** [document.head.appendChild(script)] *)
Definition appendChild (w : World) (s : Script) : World :=
  set_scripts w (scripts w ++ [s]).

Definition call (w : World) (c : Call) : World :=
  mkWorld (config w) (consentGiven w) (storage w) (scripts w)
          (plausible w) (fathom w) (gtag w) (calls w ++ [c]).

(** [window.gtag = gtag] *)
Definition define_gtag (w : World) : World :=
  mkWorld (config w) (consentGiven w) (storage w) (scripts w)
          (plausible w) (fathom w) true (calls w).

Definition initializePlausible (w : World) : World :=
  let siteId := assoc "siteId" (config w) in
  if negb (truthy siteId) then w
  else
    appendChild w
      (mkScript (Url "https://plausible.io/js/script.js")
                [("defer", JBool true); ("dataset.domain", siteId)]).

Definition initializeFathom (w : World) : World :=
  let trackingId := assoc "trackingId" (config w) in
  if negb (truthy trackingId) then w
  else
    appendChild w
      (mkScript (Url "https://cdn.usefathom.com/script.js")
                [("dataset.site", trackingId); ("dataset.spa", JStr "auto");
                 ("defer", JBool true)]).

Definition initializeGoogleAnalytics (w : World) : World :=
  let trackingId := assoc "trackingId" (config w) in
  if negb (truthy trackingId) then w
  else
    let w1 := appendChild w (mkScript (GtagUrl trackingId) [("async", JBool true)]) in
    let w2 := define_gtag w1 in
    let w3 := call w2 GtagJs in
    call w3 (GtagConfig trackingId
               [("anonymize_ip", assoc "anonymizeIP" (config w));
                ("cookie_flags", JStr "SameSite=None;Secure")]).

(** [config.provider] when it is a string, and "" otherwise: no case of
    the [switch] statements is the empty string. *)
Definition provider (w : World) : string :=
  match assoc "provider" (config w) with JStr p => p | _ => "" end.

(** [initializeAnalytics(userConfig = {})]; the console output is left
    out. *)
Definition initializeAnalytics (JSON_parse : string -> completion JValue)
    (nav : Navigator) (userConfig : list (string * JValue)) (w : World)
  : completion World :=
  storedConfig ← safeGetItem (storage w) (JStr CONFIG_KEY) None;
  config1 ←
    (match storedConfig with
     | Some s =>
         if String.eqb s "" then mret (config w)
         else
           try_catch
             (parsed ← JSON_parse s;
              mret (spread parsed ++ config w))
             (fun _ => mret (config w))
     | None => mret (config w)
     end);
  let config2 := userConfig ++ config1 in
  consent ← safeGetItem (storage w) (JStr CONSENT_KEY) None;
  let given := bool_decide (consent = Some "true") in
  let w1 := set_consent (set_config w config2) given in
  if truthy (assoc "respectDNT" config2) && isDNTEnabled nav then
    mret (set_config w1 (("enabled", JBool false) :: config2))
  else if negb (truthy (assoc "enabled" config2)) || negb given then mret w1
  else if String.eqb (provider w1) "plausible" then mret (initializePlausible w1)
  else if String.eqb (provider w1) "fathom" then mret (initializeFathom w1)
  else if String.eqb (provider w1) "google" then mret (initializeGoogleAnalytics w1)
  else mret w1.

(** [url || window.location.pathname] *)
Definition pageUrl (nav : Navigator) (url : option string) : string :=
  match url with
  | Some u => if String.eqb u "" then pathname nav else u
  | None => pathname nav
  end.

Definition trackPageView (nav : Navigator) (url : option string) (w : World) : World :=
  if negb (truthy (assoc "enabled" (config w))) || negb (consentGiven w) then w
  else if String.eqb (provider w) "plausible" then
    if plausible w
    then call w (PlausibleCall "pageview" [("url", JStr (pageUrl nav url))])
    else w
  else if String.eqb (provider w) "fathom" then
    if fathom w then call w (FathomPageview (pageUrl nav url)) else w
  else if String.eqb (provider w) "google" then
    if gtag w
    then call w (GtagConfig (assoc "trackingId" (config w))
                   [("page_path", JStr (pageUrl nav url))])
    else w
  else w.

(** [trackEvent({ name, properties = {} })] *)
Definition trackEvent (name : string) (properties : option (list (string * JValue)))
    (w : World) : World :=
  if negb (truthy (assoc "enabled" (config w))) || negb (consentGiven w) then w
  else
    let props := default [] properties in
    if String.eqb (provider w) "plausible" then
      if plausible w then call w (PlausibleCall name [("props", JObj props)]) else w
    else if String.eqb (provider w) "fathom" then
      if fathom w then call w (FathomGoal name) else w
    else if String.eqb (provider w) "google" then
      if gtag w then call w (GtagEvent name props) else w
    else w.

Definition grantConsent (JSON_parse : string -> completion JValue) (nav : Navigator)
    (w : World) : completion World :=
  let w1 := set_consent w true in
  '(_, ls) ← safeSetItem (storage w1) (JStr CONSENT_KEY) (JStr "true");
  initializeAnalytics JSON_parse nav [] (set_storage w1 ls).

(** [needle] occurs in [s]. *)
Fixpoint contains (needle s : string) : bool :=
  String.prefix needle s ||
  match s with
  | EmptyString => false
  | String _ s' => contains needle s'
  end.

(** The selector [script[src*="plausible"], script[src*="fathom"],
    script[src*="googletagmanager"]]. The gtag address holds
    "googletagmanager" whatever its id. *)
Definition tracking_script (s : Script) : bool :=
  match src s with
  | Inline => false
  | Url a => contains "plausible" a || contains "fathom" a || contains "googletagmanager" a
  | GtagUrl _ => true
  end.

Definition revokeConsent (w : World) : completion World :=
  let w1 := set_consent w false in
  '(_, ls) ← safeSetItem (storage w1) (JStr CONSENT_KEY) (JStr "false");
  let w2 := set_storage w1 ls in
  let w3 := set_config w2 (("enabled", JBool false) :: config w2) in
  mret (set_scripts w3 (filter (λ s, tracking_script s = false) (scripts w3))).

Definition hasConsent (w : World) : bool := consentGiven w.

(** [updateConfig(newConfig)]; [JSON.stringify] is outside any [try]. *)
Definition updateConfig (JSON_parse : string -> completion JValue)
    (JSON_stringify : JValue -> completion (option string)) (nav : Navigator)
    (newConfig : list (string * JValue)) (w : World) : completion World :=
  let w1 := set_config w (newConfig ++ config w) in
  s ← JSON_stringify (JObj (config w1));
  '(_, ls) ← safeSetItem (storage w1) (JStr CONFIG_KEY)
               (match s with Some text => JStr text | None => JUndefined end);
  let w2 := set_storage w1 ls in
  if consentGiven w2 && truthy (assoc "enabled" (config w2))
  then initializeAnalytics JSON_parse nav [] w2
  else mret w2.

Definition getConfig (w : World) : list (string * JValue) := config w.

(** The entries of [GameEvents]. *)
Definition GAME_STARTED (mode : string) : World -> World :=
  trackEvent "game_started" (Some [("mode", JStr mode)]).

Definition GAME_WON (mode : string) (guesses : float) : World -> World :=
  trackEvent "game_won" (Some [("mode", JStr mode); ("guesses", JNum guesses)]).

Definition GAME_LOST (mode : string) : World -> World :=
  trackEvent "game_lost" (Some [("mode", JStr mode)]).

Definition GAME_SHARED (mode : string) : World -> World :=
  trackEvent "game_shared" (Some [("mode", JStr mode)]).

Definition THEME_CHANGED (theme : string) : World -> World :=
  trackEvent "theme_changed" (Some [("theme", JStr theme)]).

Definition MODE_SWITCHED (from to : string) : World -> World :=
  trackEvent "mode_switched" (Some [("from", JStr from); ("to", JStr to)]).

End Analytics.

(** ** The shapes the other validators decide *)

Module Shape2.

Import Shape.

(** Settings: an object whose [hard] is an array of booleans, whose
    [dark] and [colorblind] are booleans and whose [tutorial] is a
    number between 0 and 3. *)
Definition SettingsShape (v : JValue) : Prop :=
  ∃ fs, v = JObj fs ∧
    (∃ hard, assoc "hard" fs = JArr hard ∧ Forall (λ x, ∃ b, x = JBool b) hard) ∧
    (∃ b, assoc "dark" fs = JBool b) ∧
    (∃ b, assoc "colorblind" fs = JBool b) ∧
    (∃ t, numeric (assoc "tutorial" fs) t ∧
          PrimFloat.leb 0 t = true ∧ PrimFloat.leb t 3 = true).

(** A property that is a number, or is not there at all. *)
Definition optional_number (v : JValue) : Prop :=
  v = JUndefined ∨ ∃ x, numeric v x.

(** Stats: an object with numeric [played] and [lastGame], a [guesses]
    object whose [fail] and [1] to [6] are numbers, and [streak] and
    [maxStreak] numbers when present. *)
Definition StatsShape (v : JValue) : Prop :=
  ∃ fs, v = JObj fs ∧
    (∃ p, numeric (assoc "played" fs) p) ∧
    (∃ l, numeric (assoc "lastGame" fs) l) ∧
    (∃ gs, assoc "guesses" fs = JObj gs ∧
       Forall (λ k, ∃ x, numeric (assoc k gs) x)
              ["fail"; "1"; "2"; "3"; "4"; "5"; "6"]) ∧
    optional_number (assoc "streak" fs) ∧
    optional_number (assoc "maxStreak" fs).

(** A capital letter A-Z. *)
Definition is_capital (c : ascii) : Prop :=
  (65 ≤ nat_of_ascii c ≤ 90)%nat.

(** The letters of a string, in order. *)
Definition letters (s : string) : list ascii :=
  filter (λ c, Validation.in_a_zA_Z c = true) (list_ascii_of_string s).

(** The letter [c] in either case, [lower] being its small form and
    [upper] its capital. *)
Definition either_case (lower upper c : ascii) : Prop :=
  c = lower ∨ c = upper.

End Shape2.

(** ** More sample data *)

Module Samples2.

Import LocalStorage LocalStorage2.

(** [removeItem] and [clear] that never throw. *)
Definition noFaults : Faults := mkFaults (λ _ _, false) (λ _, false).

(** [JSON.stringify] on the saved game of [Samples], and on [undefined],
    which has no JSON form. *)
Definition stringifySample (v : JValue) : completion (option string) :=
  match v with
  | JUndefined => Normal None
  | _ => Normal (Some Samples.savedGameBlob)
  end.

End Samples2.

(** ** src/monitoringConfig.ts, the analytics section *)

Module MonitoringConfig.

Import Validation2.

(** [defaultConfig.analytics] *)
Definition defaultAnalytics : list (string * JValue) :=
  [("enabled", JBool false); ("provider", JStr "none");
   ("respectDNT", JBool true); ("anonymizeIP", JBool true)].

(** [v === "true"] *)
Definition is_true_text (v : JValue) : bool :=
  match v with JStr s => String.eqb s "true" | _ => false end.

(** The [analytics] field of [loadConfigFromEnv()]. [env name] is
    [import.meta.env.<name>]: a string, or [undefined]. *)
Definition envAnalytics (env : string -> JValue) : list (string * JValue) :=
  [("enabled", JBool (is_true_text (env "VITE_ANALYTICS_ENABLED")));
   ("provider",
    let p := env "VITE_ANALYTICS_PROVIDER" in
    if truthy p then p else JStr "none")].

(** The [analytics] field of [mergeConfig(customConfig)]:
    [{...defaultConfig.analytics, ...customConfig?.analytics,
    ...envConfig.analytics}]. [custom] is [customConfig?.analytics] when
    it is there. *)
Definition mergeConfig_analytics (env : string -> JValue)
    (custom : option (list (string * JValue))) : list (string * JValue) :=
  envAnalytics env ++ default [] custom ++ defaultAnalytics.

End MonitoringConfig.

(** ** What the analytics theorems speak of *)

Module AnalyticsShape.

Import LocalStorage Analytics.

(** The provider a call goes to. *)
Definition provider_of (c : Call) : string :=
  match c with
  | PlausibleCall _ _ => "plausible"
  | FathomPageview _ | FathomGoal _ => "fathom"
  | GtagJs | GtagConfig _ _ | GtagEvent _ _ => "google"
  end.

(** Whether the function a call goes to is set on [window]. *)
Definition sink_set (w : World) (c : Call) : bool :=
  match c with
  | PlausibleCall _ _ => plausible w
  | FathomPageview _ | FathomGoal _ => fathom w
  | GtagJs | GtagConfig _ _ | GtagEvent _ _ => gtag w
  end.

(** [config.enabled] is truthy. *)
Definition enabled (w : World) : bool :=
  Validation2.truthy (assoc "enabled" (config w)).

(** The consent the storage holds: what [safeGetItem(CONSENT_KEY)]
    returns is the string "true". *)
Definition consent_stored (ls : Storage) : Prop :=
  safeGetItem ls (JStr CONSENT_KEY) None = Normal (Some "true").

(** A storage none of whose accesses throws. *)
Definition reliable (ls : Storage) : Prop :=
  (∀ m k, getItem_throws ls m k = false) ∧ (∀ m k v, setItem_throws ls m k v = false).

End AnalyticsShape.

(** ** Sample data for the analytics examples *)

Module Samples3.

Import Analytics.

(** A browser with no Do Not Track signal. *)
Definition navigator : Navigator :=
  mkNavigator JNull JUndefined JUndefined "/".

(** A browser that sends Do Not Track. *)
Definition navigatorDNT : Navigator :=
  mkNavigator (JStr "1") JUndefined JUndefined "/".

(** The module right after loading, on a page with the application's
    own script. *)
Definition start : World :=
  mkWorld defaultConfig false Samples.storage
          [mkScript (Url "/build/bundle.js") []] false false false [].

(** Plausible configured and running with consent. *)
Definition tracking : World :=
  mkWorld [("enabled", JBool true); ("provider", JStr "plausible");
           ("siteId", JStr "wordle.example")]
          true Samples.storage
          [mkScript (Url "/build/bundle.js") [];
           mkScript (Url "https://plausible.io/js/script.js")
                    [("defer", JBool true); ("dataset.domain", JStr "wordle.example")]]
          true false false [].

End Samples3.

(** ** App.svelte, start-up: the deep link, then the word of the mode *)

Module Startup.

Import LocalStorage.

(** One entry of [modeData.modes] with its numbers as the script
    computes with them: doubles. [unit_] is the source's [unit]. *)
Record Mode : Type := mkMode {
  unit_ : float;
  start : float;
  seed : float;
  historical : bool
}.

Record ModeData : Type := mkModeData {
  default : App.GameMode;
  modes : list Mode
}.

(** [modeData.modes[m]]: reading a field of a missing entry throws a
    TypeError. *)
Definition mode_entry (md : ModeData) (m : App.GameMode) : completion Mode :=
  match modes md !! App.mode_number m with
  | Some mo => Normal mo
  | None => Throw "TypeError"
  end.

(** The deep-link block of the script:
    [if (!isNaN(+hash[1]) && +hash[1] < getWordNumber(modeVal)) { ... }].
    [hash1] is the value of [+hash[1]], a double: NaN when the hash has
    no second segment or the segment is not a numeral, 0 when the
    segment is empty. The seed is computed in double arithmetic.
    [getWordNumber] belongs to utils.ts, which is not among the sources:
    what it returns for a mode is a parameter. The result is [modeData]
    afterwards. *)
Definition deepLink (getWordNumber : App.GameMode -> completion float)
    (md : ModeData) (modeVal : App.GameMode) (hash1 : float)
  : completion ModeData :=
  if negb (PrimFloat.is_nan hash1) then
    current ← getWordNumber modeVal;
    if (hash1 <? current)%float then
      mo ← mode_entry md modeVal;
      mret (mkModeData (default md)
              (<[App.mode_number modeVal :=
                   mkMode (unit_ mo) (start mo)
                          ((hash1 - 1) * unit_ mo + start mo)%float
                          true]> (modes md)))
    else mret md
  else mret md.

(** Modelled from the spec: the seeded generator of section 4.2, which
    [seededRandomInt] of utils.ts (not among the sources) draws from. A
    generator has a state; seeding sets the state from the seed alone,
    and a draw gives a number in [0,1) and moves the state on. *)
Record Generator : Type := mkGenerator {
  gstate : Type;
  reseed : float -> gstate;
  draw : gstate -> Q * gstate
}.

(** Modelled from the spec: [seededRandomInt(min, max, seed)]. Section
    4.2: one draw is taken per call, and the generator state is not
    carried across calls: each call re-seeds from the given seed. [g] is
    the state the call finds, the second component the state it
    leaves. *)
Definition seededRandomInt (gen : Generator) (min max : Z) (seed : float)
    (g : gstate gen) : Z * gstate gen :=
  let g0 := reseed gen seed in
  let '(r, g1) := draw gen g0 in
  (Qfloor (inject_Z min + inject_Z (max - min) * r)%Q, g1).

(** [words.words[seededRandomInt(0, words.words.length, seed)]] *)
Definition wordAt (gen : Generator) (words : list string) (seed : float)
    (g : gstate gen) : option string * gstate gen :=
  let '(i, g1) := seededRandomInt gen 0 (Z.of_nat (length words)) seed g in
  (App.js_index words i, g1).

(** The [mode.subscribe] callback, run on the storage and the generator
    state it finds; it returns what it computed and what it leaves. *)
Definition subscribe (gen : Generator) (words : list string) (md : ModeData)
    (m : App.GameMode) (world : Storage * gstate gen)
  : completion (App.Loaded * (Storage * gstate gen)) :=
  let '(ls, g) := world in
  '(_, ls1) ← safeSetItem ls (JStr "mode") (JStr (pretty (App.mode_number m)));
  raw_stats ← safeGetItem ls1 (JStr (App.stats_key m)) None;
  mo ← mode_entry md m;
  let '(w, g1) := wordAt gen words (seed mo) g in
  raw_state ←
    (if historical mo then safeGetItem ls1 (JStr (App.state_key_h m)) None
     else safeGetItem ls1 (JStr (App.state_key m)) None);
  mret (App.mkLoaded (App.or_else raw_stats m) w raw_state, (ls1, g1)).

(** The mode data of [App], whose numbers are integers, with each
    number read as the double [num] gives for it. *)
Definition of_integers (num : Z -> float) (md : App.ModeData) : ModeData :=
  mkModeData (App.default md)
    ((λ mo, mkMode (num (App.unit_ mo)) (num (App.start mo)) (num (App.seed mo))
                   (App.historical mo)) <$> App.modes md).

(** The first draw of the generator once re-seeded with an integer. *)
Definition first_draw (gen : Generator) (num : Z -> float) (seed : Z) : Q :=
  fst (draw gen (reseed gen (num seed))).

End Startup.

(** ** Sample data for the start-up examples *)

Module Samples4.

Import Startup.

(** Three modes: a day, an hour and a second long. *)
Definition modeData : ModeData :=
  mkModeData App.daily
    [mkMode 86400000 1642370400000 1699999200000 false;
     mkMode 3600000 1642528800000 1699999200000 false;
     mkMode 1000 1642428600000 1700000000000 false].

(** What [getWordNumber] returns in the examples: a word number for
    each of the three modes. *)
Definition getWordNumber (m : App.GameMode) : completion float :=
  Normal (match m with
          | App.daily => 668
          | App.hourly => 15965
          | App.infinite => 57571401
          end)%float.



End Samples4.

(* ================================================================= *)
(** * Part II : lemmas and theorems *)
(* ================================================================= *)

(** ** Validation *)

Section ValidationFacts.

Import Validation Shape.

Lemma isNumber_numeric v : isNumber v = true ↔ ∃ x, numeric v x.
Proof.
  unfold numeric. split.
  - destruct v; simpl; try discriminate. intros H. exists x.
    split; [reflexivity|]. by apply negb_true_iff.
  - intros (x & -> & Hx). simpl. by rewrite Hx.
Qed.

Lemma isBoolean_bool v : isBoolean v = true ↔ ∃ b, v = JBool b.
Proof.
  split; [destruct v; simpl; try discriminate; eauto | by intros [b ->]].
Qed.

Lemma isArray_arr v : isArray v = true ↔ ∃ l, v = JArr l.
Proof.
  split; [destruct v; simpl; try discriminate; eauto | by intros [l ->]].
Qed.

Lemma isObject_obj v : isObject v = true ↔ ∃ fs, v = JObj fs.
Proof.
  split; [destruct v; simpl; try discriminate; eauto | by intros [l ->]].
Qed.

(** The validator decides the shape the specification describes. *)
Lemma isValidGameState_shape v : isValidGameState v = true ↔ GameStateShape v.
Proof.
  unfold isValidGameState, GameStateShape. split.
  - destruct (isObject v) eqn:Hobj; simpl; [|discriminate].
    apply isObject_obj in Hobj as [fs ->]. simpl.
    rewrite !andb_true_iff.
    intros [[[[[[[[[Ha Hg] Hg0] Hg6] Hv] Ht] Hn] Hb] Hw] Hs].
    exists fs. split; [reflexivity|].
    apply isBoolean_bool in Ha, Hv. apply isNumber_numeric in Hg, Ht, Hn.
    apply isObject_obj in Hb as [bs Hb]. rewrite Hb in Hw, Hs. simpl in Hw, Hs.
    apply isArray_arr in Hw as [ws Hw], Hs as [ss Hs].
    destruct Hg as [g Hg]. pose proof Hg as [Hgv _].
    rewrite Hgv in Hg0, Hg6. simpl in Hg0, Hg6.
    repeat split; eauto 10.
  - intros (fs & -> & [a Ha] & (g & [Hg Hnan] & Hg0 & Hg6) & [vh Hv] & (t & Ht & Htn)
            & (n & Hn & Hnn) & (bs & ws & ss & Hb & Hw & Hs)).
    simpl. rewrite Ha, Hg, Hv, Ht, Hn, Hb. simpl. rewrite Hw, Hs, Hnan, Htn, Hnn, Hg0, Hg6.
    reflexivity.
Qed.

Lemma in_a_zA_Z_letter c : in_a_zA_Z c = true ↔ is_letter c.
Proof.
  unfold in_a_zA_Z, is_letter. simpl nat_of_ascii at 1.
  change (nat_of_ascii "A"%char) with 65. change (nat_of_ascii "Z"%char) with 90.
  change (nat_of_ascii "a"%char) with 97. change (nat_of_ascii "z"%char) with 122.
  rewrite orb_true_iff, !andb_true_iff, !Nat.leb_le. tauto.
Qed.

Lemma match_letters_spec n s :
  match_letters n s = true ↔
  String.length s = n ∧ Forall is_letter (list_ascii_of_string s).
Proof.
  revert s. induction n as [|n IH]; intros [|c s]; simpl; split;
    try (intros [? ?]; discriminate); try discriminate; auto.
  - rewrite andb_true_iff, in_a_zA_Z_letter, IH. intros [Hc [Hl Hs]].
    split; [by rewrite Hl | by constructor].
  - intros [Hl Hs]. inversion Hs; subst.
    rewrite andb_true_iff, in_a_zA_Z_letter, IH. split; [done|].
    split; [congruence | done].
Qed.

Lemma isValidWord_spec v :
  isValidWord v = true ↔ ∃ s, v = JStr s ∧ five_letters s.
Proof.
  unfold isValidWord, five_letters. split.
  - destruct v; try discriminate. rewrite match_letters_spec. eauto.
  - intros (s & -> & H). by apply match_letters_spec.
Qed.

End ValidationFacts.

(** C4. For every input string, [parseJSON] with the [isValidGameState]
    validator never throws: when [JSON.parse] yields a value of the
    GameState shape the result is that value, and for every other input
    (a value of another shape, or text that does not parse) the result
    is the fallback. *)
Theorem parseJSON_GameState_total
    (JSON_parse : string → completion JValue) (json : string) (fallback : JValue) :
  let result :=
    Validation.parseJSON JSON_parse json
      (λ v, Normal (Validation.isValidGameState v)) fallback in
  (∃ r, result = Normal r) ∧
  (∀ v, JSON_parse json = Normal v → Shape.GameStateShape v → result = Normal v) ∧
  (∀ v, JSON_parse json = Normal v → ¬ Shape.GameStateShape v →
        result = Normal fallback) ∧
  (∀ e, JSON_parse json = Throw e → result = Normal fallback).
Proof.
  unfold Validation.parseJSON. cbn zeta.
  destruct (JSON_parse json) as [v|e] eqn:Hparse; simpl.
  - destruct (Validation.isValidGameState v) eqn:Hvalid; simpl.
    + apply isValidGameState_shape in Hvalid.
      repeat split; eauto; intros; simplify_eq; done.
    + assert (¬ Shape.GameStateShape v) as Hno.
      { rewrite <- isValidGameState_shape. congruence. }
      repeat split; eauto; intros; simplify_eq; done.
  - repeat split; eauto; intros; simplify_eq.
Qed.

Lemma parseJSON_GameState_total_witness :
  Validation.parseJSON Samples.parseSample Samples.savedGameBlob
    (λ v, Normal (Validation.isValidGameState v)) JNull = Normal Samples.savedGame
  ∧ Validation.parseJSON Samples.parseSample "{oops"
    (λ v, Normal (Validation.isValidGameState v)) JNull = Normal JNull.
Proof.
  split.
  - destruct (parseJSON_GameState_total Samples.parseSample Samples.savedGameBlob JNull)
      as (_ & Hshape & _).
    apply Hshape; [reflexivity|].
    apply isValidGameState_shape. vm_compute. reflexivity.
  - destruct (parseJSON_GameState_total Samples.parseSample "{oops" JNull)
      as (_ & _ & _ & Hthrow).
    apply (Hthrow "SyntaxError"). reflexivity.
Defined.

(** A throwing validator is caught as well. *)
Lemma parseJSON_never_throws JSON_parse json validator fallback :
  ∃ r, Validation.parseJSON JSON_parse json validator fallback = Normal r.
Proof.
  unfold Validation.parseJSON.
  destruct (JSON_parse json) as [v|e]; simpl; [|eauto].
  destruct (validator v) as [ok|e]; simpl; eauto.
Qed.

(** ** Local storage *)

Section LocalStorageFacts.

Import LocalStorage.

Lemma drop_spaces_nil l : drop_spaces l = [] ↔ Forall (λ c, is_space c = true) l.
Proof.
  induction l as [|c l IH]; simpl.
  - split; [constructor | done].
  - destruct (is_space c) eqn:Hc.
    + rewrite IH. split; [by constructor | by inversion 1].
    + split; [discriminate | inversion 1; congruence].
Qed.

(** [key.trim() === ""] holds exactly for the keys made of white space
    only. *)
Lemma trim_empty s :
  trim s = "" ↔ Forall (λ c, is_space c = true) (list_ascii_of_string s).
Proof.
  unfold trim. set (l := list_ascii_of_string s). split.
  - intros H.
    assert (rev (drop_spaces (rev (drop_spaces l))) = []) as Hr.
    { rewrite <- (list_ascii_of_string_of_list_ascii (rev _)). by rewrite H. }
    destruct (drop_spaces (rev (drop_spaces l))) as [|x r] eqn:Hd.
    + apply drop_spaces_nil in Hd.
      destruct (drop_spaces l) as [|y r'] eqn:Hl; [by apply drop_spaces_nil|].
      exfalso. clear -Hd Hl.
      assert (is_space y = true) as Hy.
      { rewrite Forall_forall in Hd. apply Hd, list_elem_of_In.
        apply (proj1 (in_rev _ _)). by left. }
      induction l as [|c l IH]; simpl in Hl; [discriminate|].
      destruct (is_space c) eqn:Hc; [auto | congruence].
    + simpl in Hr. by destruct (rev r).
  - intros H. apply drop_spaces_nil in H. by rewrite H.
Qed.

Lemma safeGetItem_cases ls key fallback :
  safeGetItem ls key fallback =
  Normal (if invalid_key key then fallback
          else match getItem ls (str key) with
               | Normal (Some v) => Some v
               | _ => fallback
               end).
Proof.
  unfold safeGetItem. destruct (invalid_key key); [done|].
  destruct (getItem ls (str key)) as [[v|]|e]; done.
Qed.

End LocalStorageFacts.

(** C9. [safeGetItem] never propagates a storage failure. It returns the
    fallback when the key is not a string or is blank, when the read
    throws, and when the key is absent; the stored string comes back
    when the key is valid and the read succeeds with a string. *)
Theorem safeGetItem_never_fails (ls : LocalStorage.Storage) (key : JValue)
    (fallback : option string) :
  let result := LocalStorage.safeGetItem ls key fallback in
  let blank k := Forall (λ c, LocalStorage.is_space c = true) (list_ascii_of_string k) in
  (∃ r, result = Normal r) ∧
  (Validation.isString key = false → result = Normal fallback) ∧
  (∀ k, key = JStr k → blank k → result = Normal fallback) ∧
  (∀ k, key = JStr k → ¬ blank k →
     (∀ e, LocalStorage.getItem ls k = Throw e → result = Normal fallback) ∧
     (LocalStorage.getItem ls k = Normal None → result = Normal fallback) ∧
     (∀ v, LocalStorage.getItem ls k = Normal (Some v) → result = Normal (Some v))).
Proof.
  cbn zeta. rewrite safeGetItem_cases. split; [eauto|]. split; [|split].
  - destruct key; simpl; done.
  - intros k -> Hk. apply trim_empty in Hk. simpl. by rewrite Hk.
  - intros k -> Hk. rewrite <- trim_empty in Hk. simpl.
    destruct (String.eqb_spec (LocalStorage.trim k) ""); [done|].
    repeat split.
    + by intros e ->.
    + by intros ->.
    + by intros v ->.
Qed.

Lemma safeGetItem_never_fails_witness :
  LocalStorage.safeGetItem Samples.brokenStorage (JStr "state-0") None = Normal None
  ∧ LocalStorage.safeGetItem Samples.storage (JStr "state-0") None = Normal (Some "today")
  ∧ LocalStorage.safeGetItem Samples.storage (JStr "   ") (Some "x") = Normal (Some "x").
Proof.
  assert (¬ Forall (λ c, LocalStorage.is_space c = true)
              (list_ascii_of_string "state-0")) as Hkey.
  { intros H. inversion H as [|c l Hc _]. vm_compute in Hc. discriminate. }
  split; [|split].
  - destruct (safeGetItem_never_fails Samples.brokenStorage (JStr "state-0") None)
      as (_ & _ & _ & H).
    destruct (H "state-0" eq_refl Hkey) as (Hthrow & _ & _).
    apply (Hthrow "getItem"). reflexivity.
  - destruct (safeGetItem_never_fails Samples.storage (JStr "state-0") None)
      as (_ & _ & _ & H).
    destruct (H "state-0" eq_refl Hkey) as (_ & _ & Hfound).
    apply Hfound. reflexivity.
  - destruct (safeGetItem_never_fails Samples.storage (JStr "   ") (Some "x"))
      as (_ & _ & Hblank & _).
    apply (Hblank "   " eq_refl). repeat constructor.
Defined.

(** ** App.svelte *)

Section AppFacts.

Import LocalStorage App.

(** [safeSetItem] always returns, and touches no key but its own. *)
Lemma safeSetItem_frame ls key value :
  ∃ ok ls', safeSetItem ls key value = Normal (ok, ls') ∧
    ∀ k, JStr k ≠ key → items ls' !! k = items ls !! k.
Proof.
  unfold safeSetItem.
  destruct (invalid_key key) eqn:Hkey; [by exists false, ls|].
  destruct (negb (Validation.isString value)); [by exists false, ls|].
  unfold setItem.
  destruct (setItem_throws ls (items ls) (str key) (str value)); simpl.
  - by exists false, ls.
  - eexists true, _. split; [reflexivity|]. simpl. intros k Hk.
    apply lookup_insert_ne. intros <-. apply Hk.
    destruct key; simpl in *; try discriminate. reflexivity.
Qed.

Lemma state_keys_differ m m' : state_key_h m ≠ state_key m'.
Proof. destruct m, m'; vm_compute; discriminate. Qed.

Lemma mode_key_differs m : "mode" ≠ state_key m ∧ "mode" ≠ state_key_h m.
Proof. destruct m; vm_compute; split; discriminate. Qed.

(** What the [mode.subscribe] callback returns when the mode has an
    entry: it always returns; the word comes from the catalog and the
    seed alone, and the state is read under one key. *)
Lemma subscribe_result rng words md ls m mo :
  mode_entry md m = Normal mo →
  ∃ r ls1, subscribe rng words md ls m = Normal (r, ls1) ∧
    word r = wordAt rng words (seed mo) ∧
    safeGetItem ls1
      (JStr (if historical mo then state_key_h m else state_key m)) None
      = Normal (state_arg r) ∧
    ∀ k, k ≠ "mode" → items ls1 !! k = items ls !! k.
Proof.
  intros Hmo. unfold subscribe.
  destruct (safeSetItem_frame ls (JStr "mode") (JStr (pretty (mode_number m))))
    as (ok & ls1 & -> & Hframe).
  simpl. rewrite (safeGetItem_cases ls1 (JStr (stats_key m))). simpl.
  rewrite Hmo. simpl.
  destruct (historical mo); rewrite !safeGetItem_cases; simpl;
    (eexists _, ls1; split; [reflexivity|]; split; [reflexivity|];
     split; [by rewrite safeGetItem_cases|];
     intros k Hk; apply Hframe; congruence).
Qed.

(** A draw in [0,1) scaled to a non-empty catalog is an index of it. *)
Lemma wordAt_defined rng words seed :
  words ≠ [] → (0 <= rng seed)%Q → (rng seed < 1)%Q →
  is_Some (wordAt rng words seed).
Proof.
  intros Hne H0 H1. unfold wordAt, seededRandomInt, js_index.
  set (n := Z.of_nat (length words)).
  assert (0 < n)%Z as Hn by (destruct words; [done | simpl in n; lia]).
  set (q := (inject_Z 0 + inject_Z (n - 0) * rng seed)%Q).
  assert (0 < inject_Z n)%Q as Hpos.
  { change 0%Q with (inject_Z 0). rewrite <- Zlt_Qlt. lia. }
  assert (0 <= q)%Q as Hq0.
  { unfold q. rewrite Qplus_0_l, Z.sub_0_r.
    apply Qmult_le_0_compat; [apply Qlt_le_weak, Hpos | exact H0]. }
  assert (q < inject_Z n)%Q as Hqn.
  { unfold q. rewrite Qplus_0_l, Z.sub_0_r.
    rewrite <- (Qmult_1_r (inject_Z n)) at 2.
    apply (proj2 (Qmult_lt_l _ _ _ Hpos)). exact H1. }
  assert (0 <= Qfloor q)%Z as Hf0.
  { rewrite <- (Qfloor_Z 0). apply Qfloor_resp_le. exact Hq0. }
  assert (Qfloor q < n)%Z as Hfn.
  { rewrite Zlt_Qlt. eapply Qle_lt_trans; [apply Qfloor_le | exact Hqn]. }
  destruct (Z.ltb_spec (Qfloor q) 0); [lia|].
  apply lookup_lt_is_Some. lia.
Qed.

End AppFacts.

(** C10. The state of a historical game and the state of the current
    game of a mode live under different keys. With the historical flag
    set, [saveState] writes under [state-<mode>-h] only and the loader
    reads that key; without it, both use [state-<mode>]. Saving one kind
    of game leaves the other kind's stored state as it was; no mode's
    historical key is another mode's current key either. *)
Theorem state_keys_disjoint (md : App.ModeData) (m : App.GameMode) (mo : App.Mode)
    (blob : string) (ls : LocalStorage.Storage) (rng : Z → Q) (words : list string) :
  App.mode_entry md m = Normal mo →
  let used := if App.historical mo then App.state_key_h m else App.state_key m in
  let other := if App.historical mo then App.state_key m else App.state_key_h m in
  used ≠ other ∧
  (∀ m1 m2, App.state_key_h m1 ≠ App.state_key m2) ∧
  (∃ ok ls', App.saveState md m blob ls = Normal (ok, ls') ∧
     (∀ k, k ≠ used →
        LocalStorage.items ls' !! k = LocalStorage.items ls !! k) ∧
     LocalStorage.items ls' !! other = LocalStorage.items ls !! other ∧
     (ok = true → LocalStorage.items ls' !! used = Some blob)) ∧
  (∃ r ls1, App.subscribe rng words md ls m = Normal (r, ls1) ∧
     LocalStorage.safeGetItem ls1 (JStr used) None = Normal (App.state_arg r) ∧
     LocalStorage.items ls1 !! used = LocalStorage.items ls !! used).
Proof.
  intros Hmo used other.
  assert (used ≠ other) as Hne.
  { unfold used, other. destruct (App.historical mo);
      [apply state_keys_differ | apply not_eq_sym, state_keys_differ]. }
  split; [exact Hne|]. split; [apply state_keys_differ|]. split.
  - unfold App.saveState. rewrite Hmo. simpl.
    assert (∃ ok ls', LocalStorage.safeSetItem ls (JStr used) (JStr blob) = Normal (ok, ls')
              ∧ (∀ k, k ≠ used → LocalStorage.items ls' !! k = LocalStorage.items ls !! k)
              ∧ (ok = true → LocalStorage.items ls' !! used = Some blob))
      as (ok & ls' & Hset & Hframe & Hstored).
    { destruct (safeSetItem_frame ls (JStr used) (JStr blob)) as (ok & ls' & Hset & Hframe).
      exists ok, ls'. split; [exact Hset|]. split.
      - intros k Hk. apply Hframe. congruence.
      - intros ->. revert Hset. unfold LocalStorage.safeSetItem, LocalStorage.setItem.
        destruct (LocalStorage.invalid_key (JStr used)); [discriminate|]. simpl.
        destruct (LocalStorage.setItem_throws ls _ _ _); [discriminate|]. simpl.
        intros [= <-]. simpl. apply lookup_insert_eq. }
    exists ok, ls'. unfold used in Hset. split.
    + destruct (App.historical mo); exact Hset.
    + split; [exact Hframe|]. split; [|exact Hstored]. apply Hframe. congruence.
  - destruct (subscribe_result rng words md ls m mo Hmo) as (r & ls1 & Hsub & _ & Hread & Hframe).
    exists r, ls1. split; [exact Hsub|]. split; [exact Hread|].
    apply Hframe. unfold used.
    destruct (mode_key_differs m) as [H1 H2].
    destruct (App.historical mo); congruence.
Qed.

Lemma state_keys_disjoint_witness :
  ∃ ok ls',
    App.saveState
      (App.mkModeData App.daily [App.mkMode 86400000 1642370400000 1642716000000 true])
      App.daily "replay" Samples.storage = Normal (ok, ls') ∧
    LocalStorage.items ls' !! "state-0" = Some "today".
Proof.
  destruct (state_keys_disjoint
              (App.mkModeData App.daily [App.mkMode 86400000 1642370400000 1642716000000 true])
              App.daily (App.mkMode 86400000 1642370400000 1642716000000 true)
              "replay" Samples.storage (λ _, 0%Q) [] eq_refl)
    as (_ & _ & (ok & ls' & Hsave & _ & Hother & _) & _).
  exists ok, ls'. split; [exact Hsave|]. etrans; [exact Hother | reflexivity].
Defined.

(** ** The guess scorer *)

Section ScorerFacts.

Import Scorer.

Lemma multiplicity_remove (c g : ascii) (table : gmultiset ascii) :
  multiplicity c (table ∖ {[+ g +]}) =
  multiplicity c table - (if decide (g = c) then 1 else 0).
Proof.
  rewrite multiplicity_difference, multiplicity_singleton.
  destruct (decide (g = c)), (decide (c = g)); congruence.
Qed.

Lemma occurrences_multiplicity c w :
  multiplicity c (list_to_set_disj w) = occurrences c w.
Proof.
  unfold occurrences. induction w as [|x w IH]; [done|].
  rewrite list_to_set_disj_cons, multiplicity_disj_union, multiplicity_singleton.
  rewrite filter_cons. destruct (decide (x = c)), (decide (c = x));
    simpl; try congruence; lia.
Qed.

(** Pass 1 only takes matched letters out of a table that holds the
    letters of the target still to come. *)
Lemma pass1_bound c guess : ∀ target table marks table',
  list_to_set_disj target ⊆ table →
  pass1 guess target table = (marks, table') →
  premarked c guess marks + multiplicity c table' ≤ multiplicity c table.
Proof.
  induction guess as [|g guess IH]; intros [|t target] table marks table' Hsub;
    simpl; try (intros [= <- <-]; simpl; lia).
  rewrite list_to_set_disj_cons in Hsub.
  destruct (decide (g = t)) as [->|Hgt].
  - destruct (pass1 guess target (table ∖ {[+ t +]})) as [marks0 table0] eqn:E.
    intros [= <- <-]. simpl.
    assert (list_to_set_disj target ⊆ table ∖ {[+ t +]}) as Hsub' by multiset_solver.
    specialize (IH _ _ _ _ Hsub' E). rewrite multiplicity_remove in IH.
    assert (1 ≤ multiplicity t table) as Ht.
    { apply elem_of_multiplicity. multiset_solver. }
    destruct (decide (t = c)) as [->|]; lia.
  - destruct (pass1 guess target table) as [marks0 table0] eqn:E.
    intros [= <- <-]. simpl.
    assert (list_to_set_disj target ⊆ table) as Hsub' by multiset_solver.
    specialize (IH _ _ _ _ Hsub' E).
    destruct (decide (g = c)); lia.
Qed.

(** Pass 2 marks a letter [Present] only while the table still has it. *)
Lemma pass2_bound c guess : ∀ marks table,
  marked c guess (pass2 guess marks table) ≤
  premarked c guess marks + multiplicity c table.
Proof.
  induction guess as [|g guess IH]; intros [|[s|] marks] table; simpl; try lia.
  - specialize (IH marks table). destruct (decide (g = c)), s; lia.
  - destruct (decide (0 < multiplicity g table)) as [Hpos|Hzero]; simpl.
    + specialize (IH marks (table ∖ {[+ g +]})). rewrite multiplicity_remove in IH.
      destruct (decide (g = c)) as [->|]; lia.
    + specialize (IH marks table). destruct (decide (g = c)); lia.
Qed.

Lemma score_letters_bound c guess target :
  marked c guess (score_letters guess target) ≤ occurrences c target.
Proof.
  unfold score_letters.
  destruct (pass1 guess target (list_to_set_disj target)) as [marks table] eqn:E.
  pose proof (pass1_bound c guess target _ marks table (reflexivity _) E) as H1.
  pose proof (pass2_bound c guess marks table) as H2.
  rewrite occurrences_multiplicity in H1. lia.
Qed.

Lemma pass1_length guess : ∀ target table,
  length guess = length target →
  length (pass1 guess target table).1 = length guess.
Proof.
  induction guess as [|g guess IH]; intros [|t target] table Hlen;
    simpl in *; try done.
  destruct (decide (g = t)).
  - specialize (IH target (table ∖ {[+ g +]})).
    destruct (pass1 guess target (table ∖ {[+ g +]})). simpl in *. auto.
  - specialize (IH target table).
    destruct (pass1 guess target table). simpl in *. auto.
Qed.

Lemma pass2_length guess : ∀ marks table,
  length marks = length guess →
  length (pass2 guess marks table) = length guess.
Proof.
  induction guess as [|g guess IH]; intros [|[s|] marks] table Hlen;
    simpl in *; try done.
  - rewrite IH; lia.
  - destruct (decide (0 < multiplicity g table)); simpl; rewrite IH; lia.
Qed.

(** One state per letter of the guess. *)
Lemma score_letters_length guess target :
  length guess = length target →
  length (score_letters guess target) = length guess.
Proof.
  intros Hlen. unfold score_letters.
  pose proof (pass1_length guess target (list_to_set_disj target) Hlen) as H1.
  destruct (pass1 guess target (list_to_set_disj target)) as [marks table].
  simpl in H1. by apply pass2_length.
Qed.

End ScorerFacts.

(** C3, as the claim states it, fails on its example: against SPEED the
    guess ERASE has its S and its last E marked Present, not Absent. *)
Lemma score_ERASE_SPEED_counterexample :
  Scorer.score "ERASE" "SPEED" ≠
  [Scorer.Present; Scorer.Absent; Scorer.Absent; Scorer.Absent; Scorer.Absent].
Proof. vm_compute. discriminate. Qed.

(** C3, amended. For every guess and target, and every letter, the
    positions of the guess that hold the letter and are marked Correct
    or Present are no more than the letter's occurrences in the target.
    Scoring ERASE against SPEED gives Present at positions 0, 3 and 4
    and Absent at positions 1 and 2. *)
Theorem score_marks_bounded (guess target : string) (c : ascii) :
  Scorer.marked c (list_ascii_of_string guess) (Scorer.score guess target)
    ≤ Scorer.occurrences c (list_ascii_of_string target)
  ∧ Scorer.score "ERASE" "SPEED" =
    [Scorer.Present; Scorer.Absent; Scorer.Absent; Scorer.Present; Scorer.Present].
Proof.
  split; [apply score_letters_bound | vm_compute; reflexivity].
Qed.

(** The other examples of the specification. *)
Example score_EERIE_SPEED :
  Scorer.score "EERIE" "SPEED" =
  [Scorer.Present; Scorer.Present; Scorer.Absent; Scorer.Absent; Scorer.Absent].
Proof. vm_compute. reflexivity. Qed.

Example score_SPEED_SPEED :
  Scorer.score "SPEED" "SPEED" =
  [Scorer.Correct; Scorer.Correct; Scorer.Correct; Scorer.Correct; Scorer.Correct].
Proof. vm_compute. reflexivity. Qed.

(** ** The game state machine *)

Section GameFacts.

Import Game.

Variable accepted : string → bool.
Variable hard : bool.
Variable target : string.

Lemma submitGuess_inr st guess st' :
  submitGuess accepted hard target st guess = inr st' →
  status st = InProgress ∧
  Validation.isValidWord (JStr guess) = true ∧ accepted guess = true ∧
  guesses st' = (guesses st ++ [guess])%list ∧
  board st' = (board st ++ [Scorer.score guess target])%list ∧
  wordNumber st' = wordNumber st ∧
  status st' = (if eq_string guess target then Won
                else if (maxGuesses <=? S (guessCount st)) then Lost
                else InProgress).
Proof.
  unfold submitGuess.
  destruct (Validation.isValidWord (JStr guess)) eqn:Hword; [|discriminate].
  destruct (accepted guess) eqn:Hacc; [|discriminate]. simpl.
  destruct (status st); try discriminate.
  destruct (hard && violatesHard st guess); [discriminate|].
  intros [= <-]. simpl. done.
Qed.

Lemma reachable_invariant st :
  reachable accepted hard target st → status_invariant target st.
Proof.
  induction 1 as [n | st guess st' Hreach [Hlen IH] Hsubmit].
  - split; [done|]. simpl. unfold guessCount, maxGuesses. simpl.
    split; [lia | apply not_elem_of_nil].
  - apply submitGuess_inr in Hsubmit
      as (Hstatus & _ & _ & Hguesses & Hboard & _ & Hstatus').
    rewrite Hstatus in IH. destruct IH as [Hcount Hnotin].
    unfold status_invariant, guessCount, maxGuesses in *.
    rewrite Hstatus', Hguesses, Hboard, !length_app. simpl length.
    split; [lia|]. unfold eq_string.
    destruct (String.eqb_spec guess target) as [->|Hne].
    + split; [lia | apply last_snoc].
    + assert (target ∉ guesses st ++ [guess]) as Hnotin'.
      { rewrite elem_of_app, list_elem_of_singleton. intros [?|?]; congruence. }
      destruct (6 <=? S (length (guesses st))) eqn:E;
        [apply Nat.leb_le in E | apply Nat.leb_gt in E];
        (split; [lia | exact Hnotin']).
Qed.

(** Playing on from a reachable state stays among the reachable states. *)
Lemma reachable_play st attempts :
  reachable accepted hard target st →
  reachable accepted hard target (play accepted hard target st attempts).
Proof.
  revert st. induction attempts as [|g attempts IH]; intros st Hreach; [done|].
  simpl. apply IH.
  destruct (submitGuess accepted hard target st g) as [e|st'] eqn:E; [done|].
  by eapply reach_submit.
Qed.

(** A finished game takes no further guess. *)
Lemma submitGuess_terminal st guess :
  status st ≠ InProgress →
  ∃ e, submitGuess accepted hard target st guess = inl e.
Proof.
  intros Hst. unfold submitGuess.
  destruct (negb _); [eauto|].
  destruct (status st); [done | eauto | eauto].
Qed.

End GameFacts.

(** C5. A game is Lost exactly when six guesses have been submitted and
    none of them is the target: not with fewer guesses, and never left
    in progress with six. No reachable state holds more than six
    guesses, and a finished game rejects every further guess. Every
    value [isValidGameState] accepts carries a numeric guess count
    between 0 and 6. *)
Theorem lost_exactly_after_six_guesses
    (accepted : string → bool) (hard : bool) (target : string) :
  (∀ st, Game.reachable accepted hard target st →
     Game.guessCount st ≤ 6 ∧
     (Game.status st = Game.Lost ↔
        Game.guessCount st = 6 ∧ target ∉ Game.guesses st) ∧
     (Game.status st ≠ Game.InProgress →
        ∀ guess, ∃ e, Game.submitGuess accepted hard target st guess = inl e)) ∧
  (∀ v, Validation.isValidGameState v = true →
     ∃ g, prop v "guesses" = JNum g ∧ PrimFloat.is_nan g = false ∧
          PrimFloat.leb 0 g = true ∧ PrimFloat.leb g 6 = true).
Proof.
  split.
  - intros st Hreach.
    destruct (reachable_invariant accepted hard target st Hreach) as [_ Hinv].
    unfold Game.maxGuesses in Hinv. split; [|split].
    + destruct (Game.status st); lia.
    + split.
      * intros Hlost. by rewrite Hlost in Hinv.
      * intros [Hsix Hnotin]. destruct (Game.status st); [lia| |done].
        destruct Hinv as [_ Hlast]. exfalso. apply Hnotin.
        apply last_Some in Hlast as [l' ->]. set_solver.
    + intros Hdone guess. by apply submitGuess_terminal.
  - intros v Hvalid. apply isValidGameState_shape in Hvalid
      as (fs & -> & _ & (g & [Hg Hnan] & Hg0 & Hg6) & _).
    exists g. simpl. done.
Qed.

Lemma lost_exactly_after_six_guesses_witness :
  Game.status
    (Game.play (λ _, true) false "SPEED" (Game.fresh 1)
       ["ERASE"; "ERASE"; "ERASE"; "ERASE"; "ERASE"; "ERASE"]) = Game.Lost
  ∧ ∃ g, prop Samples.savedGame "guesses" = JNum g ∧ PrimFloat.leb g 6 = true.
Proof.
  destruct (lost_exactly_after_six_guesses (λ _, true) false "SPEED") as [Hgame Hvalid].
  split.
  - apply (Hgame (Game.play (λ _, true) false "SPEED" (Game.fresh 1)
                    ["ERASE"; "ERASE"; "ERASE"; "ERASE"; "ERASE"; "ERASE"])).
    + apply reachable_play, Game.reach_fresh.
    + split; [reflexivity|]. vm_compute. intros H.
      repeat (apply elem_of_cons in H as [H|H]; [discriminate|]).
      by apply elem_of_nil in H.
  - destruct (Hvalid Samples.savedGame) as (g & Hg & _ & _ & Hle);
      [vm_compute; reflexivity|].
    exists g. done.
Defined.

(** C6. [isValidWord] holds exactly of the strings of five letters A-Z
    in either case. A guess that fails the test is rejected as
    InvalidWord, and the game is as it was before. *)
Theorem isValidWord_exactly_five_letters :
  (∀ v, Validation.isValidWord v = true ↔ ∃ s, v = JStr s ∧ Shape.five_letters s) ∧
  (∀ accepted hard target st guess,
     Validation.isValidWord (JStr guess) = false →
     Game.submitGuess accepted hard target st guess = inl Game.InvalidWord ∧
     Game.play accepted hard target st [guess] = st).
Proof.
  split; [apply isValidWord_spec|].
  intros accepted hard target st guess Hword.
  assert (Game.submitGuess accepted hard target st guess = inl Game.InvalidWord) as H.
  { unfold Game.submitGuess. by rewrite Hword. }
  split; [exact H|]. unfold Game.play. simpl. by rewrite H.
Qed.

Lemma isValidWord_exactly_five_letters_witness :
  Validation.isValidWord (JStr "Crane") = true ∧
  Game.submitGuess (λ _, true) false "SPEED" (Game.fresh 1) "CR4NE" = inl Game.InvalidWord.
Proof.
  destruct isValidWord_exactly_five_letters as [Hword Hreject]. split.
  - apply Hword. exists "Crane". split; [reflexivity|].
    split; [reflexivity|]. repeat constructor; vm_compute; lia.
  - apply Hreject. reflexivity.
Defined.

(** ** Statistics *)

(** C7. A result for a word number not above [lastGame] leaves the
    statistics as they are, so recording the same word number a second
    time changes nothing. *)
Theorem recordResult_idempotent (stats : Statistics.Stats) (wordNumber : Z)
    (outcome outcome' : Statistics.Outcome) :
  ((wordNumber ≤ Statistics.lastGame stats)%Z →
     Statistics.recordResult stats wordNumber outcome = stats) ∧
  Statistics.recordResult (Statistics.recordResult stats wordNumber outcome)
    wordNumber outcome'
  = Statistics.recordResult stats wordNumber outcome.
Proof.
  assert (∀ s o, (wordNumber ≤ Statistics.lastGame s)%Z →
                 Statistics.recordResult s wordNumber o = s) as Hnoop.
  { intros s o Hle. unfold Statistics.recordResult.
    destruct (Z.leb_spec wordNumber (Statistics.lastGame s)); [done | lia]. }
  split; [apply Hnoop|].
  apply Hnoop. unfold Statistics.recordResult.
  destruct (Z.leb_spec wordNumber (Statistics.lastGame stats)); [done|].
  destruct outcome; simpl; lia.
Qed.

Lemma recordResult_idempotent_witness :
  Statistics.recordResult (Statistics.mkStats 3 12 {[ 4 := 2 ]} 1 0 2) 12
    (Statistics.WonIn 3)
  = Statistics.mkStats 3 12 {[ 4 := 2 ]} 1 0 2.
Proof.
  destruct (recordResult_idempotent (Statistics.mkStats 3 12 {[ 4 := 2 ]} 1 0 2) 12
              (Statistics.WonIn 3) Statistics.LostGame) as [Hnoop _].
  apply Hnoop. simpl. lia.
Defined.

(** A new result is counted once. *)
Example recordResult_new_win :
  let stats := Statistics.mkStats 3 12 {[ 4 := 2 ]} 1 0 2 in
  let once := Statistics.recordResult stats 13 (Statistics.WonIn 4) in
  Statistics.played once = 4 ∧ Statistics.wins once !! 4 = Some 3 ∧
  Statistics.streak once = 1 ∧ Statistics.lastGame once = 13%Z ∧
  Statistics.recordResult once 13 (Statistics.WonIn 4) = once.
Proof. vm_compute. repeat split; reflexivity. Qed.

(** ** Validation, the remaining validators and conversions *)

Section Validation2Facts.

Import Validation Validation2 Shape Shape2.

Lemma every_isBoolean_spec l :
  forallb isBoolean l = true ↔ Forall (λ x, ∃ b, x = JBool b) l.
Proof.
  rewrite forallb_forall, Forall_forall. split; intros H x Hx.
  - apply isBoolean_bool, H, list_elem_of_In, Hx.
  - apply isBoolean_bool, H, list_elem_of_In, Hx.
Qed.

Lemma string_length_of_list l : String.length (string_of_list_ascii l) = length l.
Proof. induction l as [|c l IH]; simpl; congruence. Qed.

Lemma upper_letter_capital c :
  in_a_zA_Z c = true → is_capital (upper_letter c).
Proof.
  unfold is_capital.
  destruct c as [[] [] [] [] [] [] [] []]; vm_compute; intros; try discriminate; lia.
Qed.

Lemma capital_is_letter c : is_capital c → in_a_zA_Z c = true.
Proof.
  unfold is_capital, in_a_zA_Z. intros [H1 H2].
  apply orb_true_iff. right. apply andb_true_iff. split; by apply Nat.leb_le.
Qed.

Lemma upper_letter_of_capital c : is_capital c → upper_letter c = c.
Proof.
  unfold is_capital, upper_letter. intros [H1 H2].
  destruct (Nat.leb_spec 97 (nat_of_ascii c)); [lia | done].
Qed.

Lemma sanitized_capitals l :
  Forall is_capital (map upper_letter (filter (λ c, in_a_zA_Z c = true) l)).
Proof.
  induction l as [|c l IH]; [constructor|].
  rewrite filter_cons. destruct (decide (in_a_zA_Z c = true)) as [Hc|]; [|done].
  simpl. constructor; [by apply upper_letter_capital | done].
Qed.

Lemma capitals_fixed l :
  Forall is_capital l →
  map upper_letter (filter (λ c, in_a_zA_Z c = true) l) = l.
Proof.
  induction 1 as [|c l Hc _ IH]; [done|].
  rewrite filter_cons, decide_True by by apply capital_is_letter.
  simpl. by rewrite IH, upper_letter_of_capital.
Qed.

End Validation2Facts.

(** X1. What [sanitizeWordInput] returns holds capital letters A-Z only,
    one for each letter of the input and none for anything else, and
    sanitizing it again changes nothing. A value that is not a string
    gives the empty string. *)
Theorem sanitizeWordInput_capitals (input : JValue) :
  let out := Validation2.sanitizeWordInput input in
  Forall Shape2.is_capital (list_ascii_of_string out) ∧
  Validation2.sanitizeWordInput (JStr out) = out ∧
  (∀ s, input = JStr s → String.length out = length (Shape2.letters s)) ∧
  (Validation.isString input = false → out = "").
Proof.
  cbn zeta. destruct input as [| | | |s| |];
    try (split; [constructor|]; split; [done|]; split; [intros; discriminate | done]).
  unfold Validation2.sanitizeWordInput, Shape2.letters.
  rewrite !list_ascii_of_string_of_list_ascii.
  split; [apply sanitized_capitals|]. split.
  - by rewrite capitals_fixed by apply sanitized_capitals.
  - split; [|discriminate]. intros ? [= <-].
    by rewrite string_length_of_list, length_map.
Qed.

(** X2. Cleaning a user's input with [sanitizeWordInput] gives a word
    [isValidWord] accepts exactly when the input is a string with
    exactly five letters in it, whatever else it holds. *)
Theorem sanitized_word_valid_iff (input : JValue) :
  Validation.isValidWord (JStr (Validation2.sanitizeWordInput input)) = true ↔
  ∃ s, input = JStr s ∧ length (Shape2.letters s) = 5.
Proof.
  rewrite isValidWord_spec. unfold Shape.five_letters. split.
  - intros (t & [= <-] & Hlen & _).
    destruct input; simpl in Hlen; try discriminate.
    eexists. split; [reflexivity|].
    by rewrite string_length_of_list, length_map in Hlen.
  - intros (s & -> & Hlen). eexists. split; [reflexivity|]. simpl.
    rewrite string_length_of_list, length_map, list_ascii_of_string_of_list_ascii.
    split; [exact Hlen|].
    eapply Forall_impl; [apply sanitized_capitals|].
    intros c Hc. apply in_a_zA_Z_letter. by apply capital_is_letter.
Qed.

(** X3. [isValidSettings] accepts exactly the objects whose [hard] is an
    array of booleans, whose [dark] and [colorblind] are booleans and
    whose [tutorial] is a number from 0 to 3; a fractional [tutorial]
    in that range passes too. *)
Theorem isValidSettings_shape (v : JValue) :
  Validation2.isValidSettings v = true ↔ Shape2.SettingsShape v.
Proof.
  unfold Validation2.isValidSettings, Shape2.SettingsShape. split.
  - destruct (Validation.isObject v) eqn:Hobj; simpl; [|discriminate].
    apply isObject_obj in Hobj as [fs ->]. simpl.
    rewrite !andb_true_iff.
    intros [[[[[[Hh He] Hd] Hc] Ht] Ht0] Ht3].
    exists fs. split; [reflexivity|].
    apply isArray_arr in Hh as [hard Hh]. rewrite Hh in He. simpl in He.
    apply every_isBoolean_spec in He.
    apply isBoolean_bool in Hd, Hc. apply isNumber_numeric in Ht as [t Ht].
    pose proof Ht as [Htv _]. rewrite Htv in Ht0, Ht3. simpl in Ht0, Ht3.
    repeat split; eauto 10.
  - intros (fs & -> & (hard & Hh & He) & [d Hd] & [c Hc] & (t & [Ht Hnan] & Ht0 & Ht3)).
    apply every_isBoolean_spec in He.
    simpl. rewrite Hh, Hd, Hc, Ht. simpl. by rewrite He, Hnan, Ht0, Ht3.
Qed.

Section StatsFacts.

Import Validation Validation2 Shape Shape2.

Lemma optional_number_spec v :
  is_defined v && negb (isNumber v) = false ↔ optional_number v.
Proof.
  unfold optional_number. rewrite andb_false_iff, negb_false_iff, isNumber_numeric.
  split.
  - intros [H|H]; [left; by destruct v | by right].
  - intros [->|H]; [by left | by right].
Qed.

End StatsFacts.

(** X4. [isValidStats] accepts exactly the objects with numeric
    [played] and [lastGame], a [guesses] object whose [fail] and [1] to
    [6] are all numbers, and [streak] and [maxStreak] that are numbers
    or missing: statistics saved without streaks stay valid, a streak
    of another type ([null], a string) does not. *)
Theorem isValidStats_shape (v : JValue) :
  Validation2.isValidStats v = true ↔ Shape2.StatsShape v.
Proof.
  unfold Validation2.isValidStats, Shape2.StatsShape. split.
  - destruct (Validation.isObject v) eqn:Hobj; simpl; [|discriminate].
    apply isObject_obj in Hobj as [fs ->]. simpl.
    destruct (Validation.isNumber (assoc "played" fs)) eqn:Hp; simpl; [|discriminate].
    destruct (Validation.isNumber (assoc "lastGame" fs)) eqn:Hl; simpl; [|discriminate].
    destruct (Validation.isObject (assoc "guesses" fs)) eqn:Hg; simpl; [|discriminate].
    apply isObject_obj in Hg as [gs Hg]. rewrite Hg. simpl.
    destruct (_ && _ && _ && _ && _ && _ && _) eqn:Hb; simpl; [|discriminate].
    destruct (Validation2.is_defined (assoc "streak" fs) && _) eqn:Hs; [discriminate|].
    destruct (Validation2.is_defined (assoc "maxStreak" fs) && _) eqn:Hm; [discriminate|].
    intros _. exists fs. split; [reflexivity|].
    apply isNumber_numeric in Hp, Hl.
    apply optional_number_spec in Hs, Hm.
    rewrite !andb_true_iff, !isNumber_numeric in Hb.
    destruct Hb as [[[[[[H0 H1] H2] H3] H4] H5] H6].
    repeat split; try done. exists gs. split; [done|].
    repeat constructor; done.
  - intros (fs & -> & Hp & Hl & (gs & Hg & Hb) & Hs & Hm).
    apply isNumber_numeric in Hp, Hl. apply optional_number_spec in Hs, Hm.
    simpl. rewrite Hp, Hl, Hg. simpl.
    repeat match goal with
           | H : Forall _ (_ :: _) |- _ =>
               let Hx := fresh "Hx" in
               apply Forall_cons in H as [Hx H]; apply isNumber_numeric in Hx
           end.
    rewrite Hx, Hx0, Hx1, Hx2, Hx3, Hx4, Hx5. simpl. by rewrite Hs, Hm.
Qed.

Section ToBooleanFacts.

Import Validation2 Shape2.

Lemma lower_unit_is (l u : ascii) c :
  (l, u) ∈ [("t", "T"); ("r", "R"); ("u", "U"); ("e", "E")]%char →
  lower_unit c = l ↔ either_case l u c.
Proof.
  unfold either_case. intros Hin.
  repeat (apply elem_of_cons in Hin as [[= -> ->]|Hin]);
    [| | | | by apply elem_of_nil in Hin];
    destruct c as [[] [] [] [] [] [] [] []]; vm_compute;
    (split; [intros H; try discriminate H; auto | intros [H|H]; try discriminate H; auto]).
Qed.

End ToBooleanFacts.

(** X5. On a string, [toBoolean] is true exactly for the four letters
    t-r-u-e in any mix of cases; every other string, "false", "1" and
    the empty string among them, gives false. It reads back the string
    form of a boolean. *)
Theorem toBoolean_string (s : string) :
  (Validation2.toBoolean (JStr s) = true ↔
   ∃ c1 c2 c3 c4, s = String c1 (String c2 (String c3 (String c4 ""))) ∧
     Shape2.either_case "t" "T" c1 ∧ Shape2.either_case "r" "R" c2 ∧
     Shape2.either_case "u" "U" c3 ∧ Shape2.either_case "e" "E" c4) ∧
  (∀ b : bool, Validation2.toBoolean (JStr (if b then "true" else "false")) = b).
Proof.
  split; [|by intros []].
  unfold Validation2.toBoolean, Validation2.toLowerCase.
  rewrite String.eqb_eq. split.
  - intros H.
    destruct s as [|c1 [|c2 [|c3 [|c4 [|c5 s]]]]]; simpl in H; try discriminate H.
    injection H as H1 H2 H3 H4.
    exists c1, c2, c3, c4. split; [reflexivity|].
    rewrite <- !lower_unit_is by set_solver. done.
  - intros (c1 & c2 & c3 & c4 & -> & H1 & H2 & H3 & H4).
    rewrite <- lower_unit_is in H1, H2, H3, H4 by set_solver.
    simpl. by rewrite H1, H2, H3, H4.
Qed.

(** X6. Whatever the validator, even one that throws, [parseJSON] returns
    normally, and what it returns is either the fallback or the value
    [JSON.parse] produced and the validator accepted. *)
Theorem parseJSON_fallback_or_validated
    (JSON_parse : string → completion JValue) (json : string)
    (validator : JValue → completion bool) (fallback : JValue) :
  ∃ r, Validation.parseJSON JSON_parse json validator fallback = Normal r ∧
    (r = fallback ∨ (JSON_parse json = Normal r ∧ validator r = Normal true)).
Proof.
  unfold Validation.parseJSON.
  destruct (JSON_parse json) as [v|e]; simpl; [|eauto].
  destruct (validator v) as [[]|e] eqn:Hv; simpl; eauto.
Qed.

(** ** Local storage, the remaining operations *)

Section LocalStorage2Facts.

Import LocalStorage LocalStorage2.

Lemma invalid_key_false key :
  invalid_key key = false → ∃ k, key = JStr k.
Proof. destruct key; simpl; try discriminate. eauto. Qed.

(** [safeSetItem], outcome by outcome. *)
Lemma safeSetItem_cases ls key value :
  safeSetItem ls key value =
  Normal (if invalid_key key || negb (Validation.isString value)
             || setItem_throws ls (items ls) (str key) (str value)
          then (false, ls)
          else (true, mkStorage (<[str key := str value]> (items ls))
                                (getItem_throws ls) (setItem_throws ls))).
Proof.
  unfold safeSetItem, setItem.
  destruct (invalid_key key); [done|].
  destruct (negb (Validation.isString value)); [done|]. simpl.
  by destruct (setItem_throws ls (items ls) (str key) (str value)).
Qed.

End LocalStorage2Facts.

(** X7. [safeSetItem] never throws. When it returns [false] the storage
    is exactly as it was; it returns [true] only for a usable key and a
    string value, and then the storage differs by that one item. *)
Theorem safeSetItem_all_or_nothing (ls : LocalStorage.Storage) (key value : JValue) :
  ∃ ok ls', LocalStorage.safeSetItem ls key value = Normal (ok, ls') ∧
    (ok = false → ls' = ls) ∧
    (ok = true → ∃ k v, key = JStr k ∧ value = JStr v ∧
       LocalStorage.invalid_key key = false ∧
       LocalStorage.items ls' = <[k := v]> (LocalStorage.items ls)).
Proof.
  rewrite safeSetItem_cases.
  destruct (LocalStorage.invalid_key key) eqn:Hkey; simpl.
  { eexists _, _. split; [reflexivity|]. split; [done | discriminate]. }
  destruct (Validation.isString value) eqn:Hval; simpl;
    [| eexists _, _; split; [reflexivity|]; split; [done | discriminate]].
  destruct (LocalStorage.setItem_throws ls _ _ _);
    eexists _, _; (split; [reflexivity|]); (split; [try done; discriminate|]);
    try discriminate.
  intros _. apply invalid_key_false in Hkey as [k ->].
  destruct value; try discriminate. simpl. eauto 10.
Qed.

(** X8. What [safeSetItem] reports as stored is what [safeGetItem] reads
    back under the same key, whenever the read itself does not throw. *)
Theorem safeSetItem_then_safeGetItem (ls ls' : LocalStorage.Storage)
    (key value : JValue) (fallback : option string) :
  LocalStorage.safeSetItem ls key value = Normal (true, ls') →
  LocalStorage.getItem_throws ls' (LocalStorage.items ls') (LocalStorage.str key) = false →
  ∃ v, value = JStr v ∧ LocalStorage.safeGetItem ls' key fallback = Normal (Some v).
Proof.
  rewrite safeSetItem_cases, safeGetItem_cases.
  destruct (LocalStorage.invalid_key key) eqn:Hkey; simpl; [discriminate|].
  destruct (Validation.isString value) eqn:Hval; simpl; [|discriminate].
  destruct (LocalStorage.setItem_throws ls _ _ _); [discriminate|].
  intros [= <-]. simpl. intros Hread.
  destruct value; try discriminate. exists s. split; [reflexivity|].
  unfold LocalStorage.getItem. simpl in *. rewrite Hread.
  by rewrite lookup_insert_eq.
Qed.

Lemma safeSetItem_then_safeGetItem_witness :
  ∃ ls', LocalStorage.safeSetItem Samples.storage (JStr "state-1") (JStr "hourly game")
           = Normal (true, ls') ∧
    LocalStorage.safeGetItem ls' (JStr "state-1") None = Normal (Some "hourly game").
Proof.
  eexists. split; [reflexivity|].
  destruct (safeSetItem_then_safeGetItem Samples.storage _ (JStr "state-1")
              (JStr "hourly game") None eq_refl eq_refl) as (v & [= <-] & Hget).
  exact Hget.
Defined.

(** X9. [safeRemoveItem] never throws. After it returns [true],
    [safeGetItem] gives the fallback for that key and every other key
    is untouched; when it returns [false] nothing has changed. *)
Theorem safeRemoveItem_removes (f : LocalStorage2.Faults) (ls : LocalStorage.Storage)
    (key : JValue) :
  ∃ ok ls', LocalStorage2.safeRemoveItem f ls key = Normal (ok, ls') ∧
    (ok = false → ls' = ls) ∧
    (ok = true →
       (∀ fallback, LocalStorage.safeGetItem ls' key fallback = Normal fallback) ∧
       (∀ k, JStr k ≠ key →
          LocalStorage.items ls' !! k = LocalStorage.items ls !! k)).
Proof.
  unfold LocalStorage2.safeRemoveItem, LocalStorage2.removeItem.
  destruct (LocalStorage.invalid_key key) eqn:Hkey; simpl.
  { exists false, ls. split; [reflexivity|]. split; [done | discriminate]. }
  destruct (LocalStorage2.removeItem_throws f _ _); simpl.
  { exists false, ls. split; [reflexivity|]. split; [done | discriminate]. }
  eexists true, _. split; [reflexivity|]. split; [discriminate|]. intros _.
  apply invalid_key_false in Hkey as Hk. destruct Hk as [k ->]. split.
  - intros fallback. rewrite safeGetItem_cases, Hkey.
    unfold LocalStorage.getItem. simpl.
    destruct (LocalStorage.getItem_throws ls _ _); [done|].
    by rewrite lookup_delete_eq.
  - intros k' Hk'. simpl. apply lookup_delete_ne. congruence.
Qed.

(** X10. [safeClear] never throws. After it returns [true],
    [safeGetItem] gives the fallback for every key; when it returns
    [false] nothing has changed. *)
Theorem safeClear_clears (f : LocalStorage2.Faults) (ls : LocalStorage.Storage) :
  ∃ ok ls', LocalStorage2.safeClear f ls = Normal (ok, ls') ∧
    (ok = false → ls' = ls) ∧
    (ok = true →
       ∀ key fallback, LocalStorage.safeGetItem ls' key fallback = Normal fallback).
Proof.
  unfold LocalStorage2.safeClear, LocalStorage2.clear.
  destruct (LocalStorage2.clear_throws f _); simpl.
  { exists false, ls. split; [reflexivity|]. split; [done | discriminate]. }
  eexists true, _. split; [reflexivity|]. split; [discriminate|].
  intros _ key fallback. rewrite safeGetItem_cases.
  destruct (LocalStorage.invalid_key key); [done|].
  unfold LocalStorage.getItem. simpl.
  destruct (LocalStorage.getItem_throws ls _ _); [done|].
  by rewrite lookup_empty.
Qed.

(** X11. Neither revision of [safeGetJSON] throws. The first returns the
    fallback or what [JSON.parse] made of the stored text. The second
    returns [null] or what [JSON.parse] made of the stored text, and
    with a validator only a value the validator accepted. *)
Theorem safeGetJSON_sound (JSON_parse : string → completion JValue)
    (ls : LocalStorage.Storage) (key : JValue) :
  (∀ fallback, ∃ r,
     LocalStorage2.safeGetJSON JSON_parse ls key fallback = Normal r ∧
     (r = fallback ∨
      ∃ k text, key = JStr k ∧ LocalStorage.getItem ls k = Normal (Some text) ∧
                JSON_parse text = Normal r)) ∧
  (∀ validator, ∃ r,
     LocalStorage2.safeGetJSON_validated JSON_parse ls key validator = Normal r ∧
     (r = JNull ∨
      ∃ k text, key = JStr k ∧ LocalStorage.getItem ls k = Normal (Some text) ∧
                JSON_parse text = Normal r ∧
                ∀ check, validator = Some check → check r = Normal true)).
Proof.
  split.
  - intros fallback. unfold LocalStorage2.safeGetJSON.
    destruct (LocalStorage.invalid_key key) eqn:Hkey; simpl; [eauto|].
    apply invalid_key_false in Hkey as [k ->]. simpl.
    destruct (LocalStorage.getItem ls k) as [[text|]|e] eqn:Hget; simpl; eauto.
    destruct (JSON_parse text) as [v|e] eqn:Hparse; simpl; eauto 10.
  - intros validator. unfold LocalStorage2.safeGetJSON_validated.
    destruct (LocalStorage.invalid_key key) eqn:Hkey; simpl; [eauto|].
    apply invalid_key_false in Hkey as [k ->]. simpl.
    destruct (LocalStorage.getItem ls k) as [[text|]|e] eqn:Hget; simpl; eauto.
    destruct (JSON_parse text) as [v|e] eqn:Hparse; simpl; eauto.
    destruct validator as [check|]; simpl.
    + destruct (check v) as [[]|e] eqn:Hcheck; simpl; eauto.
      eexists. split; [reflexivity|]. right. exists k, text.
      repeat split; try done. by intros ? [= <-].
    + eexists. split; [reflexivity|]. right. exists k, text.
      repeat split; try done.
Qed.

(** X12. A value stored by [safeSetJSON] comes back from [safeGetJSON],
    in both revisions, when [JSON.parse] inverts [JSON.stringify] on it,
    the read does not throw and the validator, if any, accepts it. *)
Theorem safeSetJSON_then_safeGetJSON
    (JSON_stringify : JValue → completion (option string))
    (JSON_parse : string → completion JValue)
    (ls ls' : LocalStorage.Storage) (key value : JValue) (text : string) :
  LocalStorage2.safeSetJSON JSON_stringify ls key value = Normal (true, ls') →
  JSON_stringify value = Normal (Some text) →
  JSON_parse text = Normal value →
  LocalStorage.getItem_throws ls' (LocalStorage.items ls') (LocalStorage.str key) = false →
  (∀ fallback, LocalStorage2.safeGetJSON JSON_parse ls' key fallback = Normal value) ∧
  LocalStorage2.safeGetJSON_validated JSON_parse ls' key None = Normal value ∧
  (∀ check, check value = Normal true →
     LocalStorage2.safeGetJSON_validated JSON_parse ls' key (Some check) = Normal value).
Proof.
  unfold LocalStorage2.safeSetJSON, LocalStorage2.safeGetJSON,
    LocalStorage2.safeGetJSON_validated, LocalStorage.setItem.
  destruct (LocalStorage.invalid_key key) eqn:Hkey; simpl; [discriminate|].
  intros Hset Hstr Hparse Hread. rewrite Hstr in Hset. simpl in Hset.
  destruct (LocalStorage.setItem_throws ls _ _ _); [discriminate|].
  simpl in Hset. injection Hset as <-.
  unfold LocalStorage.getItem. simpl in *. rewrite Hread. simpl.
  rewrite lookup_insert_eq. simpl. rewrite Hparse. simpl.
  repeat split; try done. intros check Hcheck. by rewrite Hcheck.
Qed.

Lemma safeSetJSON_then_safeGetJSON_witness :
  ∃ ls', LocalStorage2.safeSetJSON Samples2.stringifySample Samples.storage
           (JStr "backup") Samples.savedGame = Normal (true, ls') ∧
    LocalStorage2.safeGetJSON Samples.parseSample ls' (JStr "backup") JNull
      = Normal Samples.savedGame.
Proof.
  eexists. split; [reflexivity|].
  destruct (safeSetJSON_then_safeGetJSON Samples2.stringifySample Samples.parseSample
              Samples.storage _ (JStr "backup") Samples.savedGame Samples.savedGameBlob
              eq_refl eq_refl eq_refl eq_refl) as (Hget & _).
  apply Hget.
Defined.

(** X13. For a value with no JSON form, for which [JSON.stringify]
    gives [undefined], [safeSetJSON] still reports success when the
    write goes through: what it stores is the text "undefined". *)
Theorem safeSetJSON_undefined
    (JSON_stringify : JValue → completion (option string))
    (ls : LocalStorage.Storage) (k : string) (value : JValue) :
  LocalStorage.invalid_key (JStr k) = false →
  JSON_stringify value = Normal None →
  LocalStorage.setItem_throws ls (LocalStorage.items ls) k "undefined" = false →
  ∃ ls', LocalStorage2.safeSetJSON JSON_stringify ls (JStr k) value = Normal (true, ls') ∧
    LocalStorage.items ls' !! k = Some "undefined".
Proof.
  intros Hkey Hstr Hset.
  unfold LocalStorage2.safeSetJSON, LocalStorage.setItem.
  rewrite Hkey, Hstr. simpl. rewrite Hset. simpl.
  eexists. split; [reflexivity|]. simpl. apply lookup_insert_eq.
Qed.

Lemma safeSetJSON_undefined_witness :
  ∃ ls', LocalStorage2.safeSetJSON Samples2.stringifySample Samples.storage
           (JStr "backup") JUndefined = Normal (true, ls') ∧
    LocalStorage.items ls' !! "backup" = Some "undefined".
Proof.
  apply (safeSetJSON_undefined Samples2.stringifySample Samples.storage "backup" JUndefined);
    reflexivity.
Defined.

(** ** App.svelte, the blocks together *)

Section AppFlowFacts.

Import LocalStorage App.

Lemma state_key_inj m m' : state_key m = state_key m' → m = m'.
Proof. destruct m, m'; vm_compute; intros H; try discriminate H; reflexivity. Qed.

Lemma state_key_h_inj m m' : state_key_h m = state_key_h m' → m = m'.
Proof. destruct m, m'; vm_compute; intros H; try discriminate H; reflexivity. Qed.

Lemma other_keys_differ m m' :
  (state_key m ∉ [stats_key m'; "mode"; "settings"; "version"]) ∧
  (state_key_h m ∉ [stats_key m'; "mode"; "settings"; "version"]).
Proof.
  destruct m, m'; vm_compute; split; intros H;
    repeat (apply elem_of_cons in H as [H|H]; [discriminate H|]);
    by apply elem_of_nil in H.
Qed.

(** The key [saveState] writes under. *)
Lemma saveState_frame md m mo blob ls :
  mode_entry md m = Normal mo →
  let used := if historical mo then state_key_h m else state_key m in
  ∃ ok ls', saveState md m blob ls = Normal (ok, ls') ∧
    (∀ k, k ≠ used → items ls' !! k = items ls !! k) ∧
    (ok = true → items ls' !! used = Some blob).
Proof.
  intros Hmo used. unfold saveState. rewrite Hmo. simpl.
  assert (safeSetItem ls (JStr used) (JStr blob) =
          (if historical mo then safeSetItem ls (JStr (state_key_h m)) (JStr blob)
           else safeSetItem ls (JStr (state_key m)) (JStr blob))) as <-.
  { unfold used. by destruct (historical mo). }
  rewrite safeSetItem_cases.
  destruct (_ || _ || _); eexists _, _; (split; [reflexivity|]); simpl.
  - split; [done | discriminate].
  - split; [intros k Hk; by apply lookup_insert_ne | intros _; apply lookup_insert_eq].
Qed.

End AppFlowFacts.

(** X15. A game that [saveState] reports as saved is the one the
    [mode.subscribe] callback loads next for the same mode, replay or
    current alike, whenever the read does not throw. *)
Theorem saveState_then_load (rng : Z → Q) (words : list string)
    (md : App.ModeData) (m : App.GameMode) (mo : App.Mode) (blob : string)
    (ls ls' : LocalStorage.Storage) :
  App.mode_entry md m = Normal mo →
  App.saveState md m blob ls = Normal (true, ls') →
  let used := if App.historical mo then App.state_key_h m else App.state_key m in
  ∃ r ls1, App.subscribe rng words md ls' m = Normal (r, ls1) ∧
    (LocalStorage.getItem_throws ls1 (LocalStorage.items ls1) used = false →
     App.state_arg r = Some blob).
Proof.
  intros Hmo Hsave used.
  destruct (saveState_frame md m mo blob ls Hmo) as (ok & ls0 & Hsave' & _ & Hstored).
  rewrite Hsave in Hsave'. injection Hsave' as <- <-.
  specialize (Hstored eq_refl). fold used in Hstored.
  destruct (subscribe_result rng words md ls' m mo Hmo)
    as (r & ls1 & Hsub & _ & Hread & Hframe).
  exists r, ls1. split; [exact Hsub|]. intros Hok.
  fold used in Hread. rewrite safeGetItem_cases in Hread. simpl in Hread.
  assert ((LocalStorage.trim used =? "")%string = false) as Hkey.
  { unfold used. destruct (App.historical mo), m; reflexivity. }
  rewrite Hkey in Hread. unfold LocalStorage.getItem in Hread.
  rewrite Hok, Hframe, Hstored in Hread.
  - by injection Hread as <-.
  - unfold used. destruct (mode_key_differs m). destruct (App.historical mo); congruence.
Qed.

Lemma saveState_then_load_witness :
  ∃ ls' r ls1,
    App.saveState Samples.modeData App.hourly "two guesses" Samples.storage
      = Normal (true, ls') ∧
    App.subscribe (λ _, 0%Q) ["cigar"] Samples.modeData ls' App.hourly = Normal (r, ls1) ∧
    App.state_arg r = Some "two guesses".
Proof.
  eexists. 
  destruct (saveState_then_load (λ _, 0%Q) ["cigar"] Samples.modeData App.hourly
              (App.mkMode 3600000 1642528800000 1699999200000 false) "two guesses"
              Samples.storage _ eq_refl eq_refl) as (r & ls1 & Hsub & Hload).
  exists r, ls1. split; [reflexivity|]. split; [exact Hsub|].
  apply Hload. vm_compute in Hsub. injection Hsub as _ <-. reflexivity.
Defined.

(** X16. [saveState] never throws once the mode has an entry, and it
    leaves alone the game of every other mode, replay and current, the
    statistics of every mode, and the stored mode, settings and
    version. *)
Theorem saveState_isolated (md : App.ModeData) (m : App.GameMode) (mo : App.Mode)
    (blob : string) (ls : LocalStorage.Storage) :
  App.mode_entry md m = Normal mo →
  ∃ ok ls', App.saveState md m blob ls = Normal (ok, ls') ∧
    (∀ m', m' ≠ m →
       LocalStorage.items ls' !! App.state_key m'
         = LocalStorage.items ls !! App.state_key m' ∧
       LocalStorage.items ls' !! App.state_key_h m'
         = LocalStorage.items ls !! App.state_key_h m') ∧
    (∀ m' k, k ∈ [App.stats_key m'; "mode"; "settings"; "version"] →
       LocalStorage.items ls' !! k = LocalStorage.items ls !! k).
Proof.
  intros Hmo.
  destruct (saveState_frame md m mo blob ls Hmo) as (ok & ls' & Hsave & Hframe & _).
  exists ok, ls'. split; [exact Hsave|]. split.
  - intros m' Hm'. split; apply Hframe; destruct (App.historical mo);
      intros Heq;
      first [ by apply state_key_inj in Heq
            | by apply state_key_h_inj in Heq
            | by apply state_keys_differ in Heq
            | by apply eq_sym, state_keys_differ in Heq ].
  - intros m' k Hk. apply Hframe. intros ->.
    destruct (other_keys_differ m m') as [H1 H2].
    destruct (App.historical mo); [by apply H2 | by apply H1].
Qed.

Lemma saveState_isolated_witness :
  ∃ ok ls', App.saveState Samples.modeData App.hourly "two guesses" Samples.storage
              = Normal (ok, ls') ∧
    LocalStorage.items ls' !! "state-0" = Some "today".
Proof.
  destruct (saveState_isolated Samples.modeData App.hourly
              (App.mkMode 3600000 1642528800000 1699999200000 false) "two guesses"
              Samples.storage eq_refl) as (ok & ls' & Hsave & Hgames & _).
  exists ok, ls'. split; [exact Hsave|].
  destruct (Hgames App.daily) as [Hcur _]; [discriminate|].
  etrans; [exact Hcur | reflexivity].
Defined.

(** ** Analytics *)

Section AnalyticsFacts.

Import LocalStorage Validation2 Analytics AnalyticsShape.

(** [safeGetItem] on one of the module's two keys. *)
Lemma safeGetItem_key ls k fallback :
  k = CONSENT_KEY ∨ k = CONFIG_KEY →
  safeGetItem ls (JStr k) fallback =
  Normal (match getItem ls k with
          | Normal (Some v) => Some v
          | _ => fallback
          end).
Proof. intros [->| ->]; by rewrite safeGetItem_cases. Qed.

(** The configuration [initializeAnalytics] works with: the stored one
    over the current one, and the caller's over both. *)
Lemma initializeAnalytics_cases JSON_parse nav userConfig w :
  ∃ stored given,
    (given = true ↔ consent_stored (storage w)) ∧
    initializeAnalytics JSON_parse nav userConfig w =
    Normal
      (let config2 := userConfig ++ stored ++ config w in
       let w1 := set_consent (set_config w config2) given in
       if truthy (assoc "respectDNT" config2) && isDNTEnabled nav then
         set_config w1 (("enabled", JBool false) :: config2)
       else if negb (truthy (assoc "enabled" config2)) || negb given then w1
       else if String.eqb (provider w1) "plausible" then initializePlausible w1
       else if String.eqb (provider w1) "fathom" then initializeFathom w1
       else if String.eqb (provider w1) "google" then initializeGoogleAnalytics w1
       else w1).
Proof.
  unfold initializeAnalytics, consent_stored.
  rewrite !safeGetItem_key by auto. simpl.
  set (raw := match getItem (storage w) CONFIG_KEY with
              | Normal (Some v) => Some v
              | _ => None
              end).
  set (consent := match getItem (storage w) CONSENT_KEY with
                  | Normal (Some v) => Some v
                  | _ => None
                  end).
  assert (∃ stored,
            (match raw with
             | Some s =>
                 if String.eqb s "" then mret (config w)
                 else try_catch (parsed ← JSON_parse s; mret (spread parsed ++ config w))
                                (λ _, mret (config w))
             | None => mret (config w)
             end) = Normal (stored ++ config w)) as [stored Hstored].
  { destruct raw as [s|]; [|by exists []].
    destruct (String.eqb s ""); [by exists []|].
    destruct (JSON_parse s) as [parsed|e]; simpl; [by exists (spread parsed) | by exists []]. }
  exists stored, (bool_decide (consent = Some "true")). split.
  { rewrite bool_decide_eq_true. split; [by intros -> | by intros [= ->]]. }
  rewrite Hstored. simpl.
  set (given := bool_decide (consent = Some "true")).
  destruct (truthy _ && isDNTEnabled nav); [done|].
  destruct (negb _ || negb given); [done|].
  repeat (match goal with |- context [String.eqb ?a ?b] => destruct (String.eqb a b) end;
          [done|]).
  done.
Qed.

Lemma call_cases w c :
  config (call w c) = config w ∧ consentGiven (call w c) = consentGiven w ∧
  storage (call w c) = storage w ∧ scripts (call w c) = scripts w ∧
  calls (call w c) = calls w ++ [c].
Proof. done. Qed.

Lemma trackEvent_cases name properties w :
  trackEvent name properties w = w ∨
  ∃ c, trackEvent name properties w = call w c ∧
       enabled w = true ∧ consentGiven w = true ∧
       provider_of c = provider w ∧ sink_set w c = true.
Proof.
  unfold trackEvent, enabled.
  destruct (truthy (assoc "enabled" (config w))); simpl; [|by left].
  destruct (consentGiven w); simpl; [|by left].
  destruct (String.eqb_spec (provider w) "plausible") as [->|_].
  { destruct (plausible w) eqn:E; [right | by left]. eexists. by repeat split. }
  destruct (String.eqb_spec (provider w) "fathom") as [->|_].
  { destruct (fathom w) eqn:E; [right | by left]. eexists. by repeat split. }
  destruct (String.eqb_spec (provider w) "google") as [->|_]; [|by left].
  destruct (gtag w) eqn:E; [right | by left]. eexists. by repeat split.
Qed.

Lemma trackPageView_cases nav url w :
  trackPageView nav url w = w ∨
  ∃ c, trackPageView nav url w = call w c ∧
       enabled w = true ∧ consentGiven w = true ∧
       provider_of c = provider w ∧ sink_set w c = true.
Proof.
  unfold trackPageView, enabled.
  destruct (truthy (assoc "enabled" (config w))); simpl; [|by left].
  destruct (consentGiven w); simpl; [|by left].
  destruct (String.eqb_spec (provider w) "plausible") as [->|_].
  { destruct (plausible w) eqn:E; [right | by left]. eexists. by repeat split. }
  destruct (String.eqb_spec (provider w) "fathom") as [->|_].
  { destruct (fathom w) eqn:E; [right | by left]. eexists. by repeat split. }
  destruct (String.eqb_spec (provider w) "google") as [->|_]; [|by left].
  destruct (gtag w) eqn:E; [right | by left]. eexists. by repeat split.
Qed.

Lemma untracked nav w :
  enabled w = false ∨ consentGiven w = false →
  (∀ url, trackPageView nav url w = w) ∧
  (∀ name properties, trackEvent name properties w = w).
Proof.
  unfold enabled, trackPageView, trackEvent.
  intros [-> | ->]; simpl; [done|]. rewrite orb_true_r. done.
Qed.

End AnalyticsFacts.

(** X17. [trackPageView], [trackEvent] and the [GameEvents] built on it
    do nothing at all unless [config.enabled] is truthy and consent has
    been given. When they do act, they make one call, to the function
    of the configured provider, and only if that function is set. *)
Theorem tracking_needs_consent (nav : Analytics.Navigator) (w : Analytics.World) :
  (AnalyticsShape.enabled w = false ∨ Analytics.consentGiven w = false →
     (∀ url, Analytics.trackPageView nav url w = w) ∧
     (∀ name properties, Analytics.trackEvent name properties w = w) ∧
     (∀ mode guesses, Analytics.GAME_STARTED mode w = w ∧
                      Analytics.GAME_WON mode guesses w = w ∧
                      Analytics.GAME_LOST mode w = w ∧
                      Analytics.GAME_SHARED mode w = w)) ∧
  (∀ url, Analytics.trackPageView nav url w = w ∨
     ∃ c, Analytics.trackPageView nav url w = Analytics.call w c ∧
          AnalyticsShape.provider_of c = Analytics.provider w ∧
          AnalyticsShape.sink_set w c = true) ∧
  (∀ name properties, Analytics.trackEvent name properties w = w ∨
     ∃ c, Analytics.trackEvent name properties w = Analytics.call w c ∧
          AnalyticsShape.provider_of c = Analytics.provider w ∧
          AnalyticsShape.sink_set w c = true).
Proof.
  split; [|split].
  - intros Hoff. destruct (untracked nav w Hoff) as [Hpage Hevent].
    split; [exact Hpage|]. split; [exact Hevent|].
    intros mode guesses. repeat split; apply Hevent.
  - intros url. destruct (trackPageView_cases nav url w) as [H|(c & H & _ & _ & Hp & Hs)];
      [by left | right; eauto].
  - intros name properties.
    destruct (trackEvent_cases name properties w) as [H|(c & H & _ & _ & Hp & Hs)];
      [by left | right; eauto].
Qed.

Lemma tracking_needs_consent_witness :
  Analytics.trackEvent "game_won" None Samples3.start = Samples3.start ∧
  Analytics.calls (Analytics.trackEvent "game_won" None Samples3.tracking)
    = [Analytics.PlausibleCall "game_won" [("props", JObj [])]].
Proof.
  split; [|reflexivity].
  destruct (tracking_needs_consent Samples3.navigator Samples3.start) as [Hoff _].
  destruct Hoff as (_ & Hevent & _); [by left|]. apply Hevent.
Defined.

Section AnalyticsFlowFacts.

Import LocalStorage Validation2 Analytics AnalyticsShape.

Lemma assoc_app k fs gs :
  (∃ v, (k, v) ∈ fs) → assoc k (fs ++ gs) = assoc k fs.
Proof.
  induction fs as [|[k' v'] fs IH]; simpl.
  - intros [v Hv]. by apply elem_of_nil in Hv.
  - intros [v Hv]. destruct (String.eqb_spec k k') as [->|Hne]; [done|].
    apply IH. apply elem_of_cons in Hv as [[= -> ->]|Hv]; [done | eauto].
Qed.

(** Each of the three loaders adds at most one script, one the selector
    of [revokeConsent] matches, and leaves the module's variables and
    the storage alone. *)
Lemma loader_effects (load : World → World) w :
  load = initializePlausible ∨ load = initializeFathom ∨ load = initializeGoogleAnalytics →
  config (load w) = config w ∧ consentGiven (load w) = consentGiven w ∧
  storage (load w) = storage w ∧
  ((scripts (load w) = scripts w ∧ calls (load w) = calls w) ∨
   ∃ s, scripts (load w) = scripts w ++ [s] ∧ tracking_script s = true).
Proof.
  intros [-> | [-> | ->]];
    unfold initializePlausible, initializeFathom, initializeGoogleAnalytics;
    destruct (negb (truthy _)); simpl; repeat split; eauto.
Qed.

(** What [initializeAnalytics] does to the world: [merged] is the
    configuration it arrives at, before the Do Not Track test. *)
Lemma initializeAnalytics_result JSON_parse nav userConfig w :
  ∃ merged w',
    initializeAnalytics JSON_parse nav userConfig w = Normal w' ∧
    storage w' = storage w ∧
    (consentGiven w' = true ↔ consent_stored (storage w)) ∧
    ((truthy (assoc "respectDNT" merged) && isDNTEnabled nav = true ∧
      config w' = ("enabled", JBool false) :: merged ∧
      scripts w' = scripts w ∧ calls w' = calls w) ∨
     (truthy (assoc "respectDNT" merged) && isDNTEnabled nav = false ∧
      config w' = merged ∧
      ((scripts w' = scripts w ∧ calls w' = calls w) ∨
       (consentGiven w' = true ∧ truthy (assoc "enabled" merged) = true ∧
        ∃ s, scripts w' = scripts w ++ [s] ∧ tracking_script s = true)))).
Proof.
  destruct (initializeAnalytics_cases JSON_parse nav userConfig w)
    as (stored & given & Hgiven & ->). cbn zeta.
  set (merged := userConfig ++ stored ++ config w).
  set (w1 := set_consent (set_config w merged) given).
  exists merged.
  destruct (truthy (assoc "respectDNT" merged) && isDNTEnabled nav) eqn:Hdnt.
  { eexists. split; [reflexivity|]. split; [done|]. split; [done|]. left. done. }
  assert (∀ w', config w' = merged → consentGiven w' = given → storage w' = storage w →
                ((scripts w' = scripts w ∧ calls w' = calls w) ∨
                 (given = true ∧ truthy (assoc "enabled" merged) = true ∧
                  ∃ s, scripts w' = scripts w ++ [s] ∧ tracking_script s = true)) →
                ∃ w'', Normal w' = Normal w'' ∧ storage w'' = storage w ∧
                  (consentGiven w'' = true ↔ consent_stored (storage w)) ∧
                  ((false = true ∧ config w'' = ("enabled", JBool false) :: merged ∧
                    scripts w'' = scripts w ∧ calls w'' = calls w) ∨
                   (false = false ∧ config w'' = merged ∧
                    ((scripts w'' = scripts w ∧ calls w'' = calls w) ∨
                     (consentGiven w'' = true ∧ truthy (assoc "enabled" merged) = true ∧
                      ∃ s, scripts w'' = scripts w ++ [s] ∧ tracking_script s = true)))))
    as Hwrap.
  { intros w' Hc Hg Hs Hscripts. exists w'. rewrite Hg.
    split; [done|]. split; [done|]. split; [done|]. right. done. }
  assert (∀ load, load = initializePlausible ∨ load = initializeFathom
                  ∨ load = initializeGoogleAnalytics →
                  given = true → truthy (assoc "enabled" merged) = true →
                  ∃ w'', Normal (load w1) = Normal w'' ∧ storage w'' = storage w ∧
                    (consentGiven w'' = true ↔ consent_stored (storage w)) ∧
                    ((false = true ∧ config w'' = ("enabled", JBool false) :: merged ∧
                      scripts w'' = scripts w ∧ calls w'' = calls w) ∨
                     (false = false ∧ config w'' = merged ∧
                      ((scripts w'' = scripts w ∧ calls w'' = calls w) ∨
                       (consentGiven w'' = true ∧ truthy (assoc "enabled" merged) = true ∧
                        ∃ s, scripts w'' = scripts w ++ [s] ∧ tracking_script s = true)))))
    as Hload.
  { intros load Hl Hg He.
    destruct (loader_effects load w1 Hl) as (Hc & Hcon & Hst & Heff).
    apply Hwrap; [by rewrite Hc | by rewrite Hcon | by rewrite Hst |].
    destruct Heff as [?|?]; [by left | by right]. }
  destruct (truthy (assoc "enabled" merged)) eqn:Hen; simpl;
    [|apply Hwrap; try done; by left].
  destruct given eqn:Hg; simpl; [|apply Hwrap; try done; by left].
  destruct (String.eqb (provider w1) "plausible"); [apply Hload; auto|].
  destruct (String.eqb (provider w1) "fathom"); [apply Hload; auto|].
  destruct (String.eqb (provider w1) "google"); [apply Hload; auto|].
  apply Hwrap; try done; by left.
Qed.

End AnalyticsFlowFacts.

(** X18. [initializeAnalytics] never throws and leaves the storage
    alone. Afterwards consent is held exactly when the storage reads
    back "true" under the consent key. It adds at most one script
    element, makes calls only when it adds one, and adds one only with
    that stored consent and a truthy [config.enabled]; the script it
    adds is one [revokeConsent] would remove. *)
Theorem scripts_need_stored_consent (JSON_parse : string → completion JValue)
    (nav : Analytics.Navigator) (userConfig : list (string * JValue))
    (w : Analytics.World) :
  ∃ w', Analytics.initializeAnalytics JSON_parse nav userConfig w = Normal w' ∧
    Analytics.storage w' = Analytics.storage w ∧
    (Analytics.hasConsent w' = true ↔ AnalyticsShape.consent_stored (Analytics.storage w)) ∧
    ((Analytics.scripts w' = Analytics.scripts w ∧ Analytics.calls w' = Analytics.calls w) ∨
     (AnalyticsShape.consent_stored (Analytics.storage w) ∧
      AnalyticsShape.enabled w' = true ∧
      ∃ s, Analytics.scripts w' = Analytics.scripts w ++ [s] ∧
           Analytics.tracking_script s = true)).
Proof.
  destruct (initializeAnalytics_result JSON_parse nav userConfig w)
    as (merged & w' & Hinit & Hst & Hcon & Hcases).
  exists w'. split; [exact Hinit|]. split; [exact Hst|]. split; [exact Hcon|].
  destruct Hcases as [(_ & _ & Hs & Hc) | (_ & Hcfg & [?|(Hg & He & Hs)])];
    [by left | by left | right].
  split; [by apply Hcon|]. unfold AnalyticsShape.enabled. by rewrite Hcfg.
Qed.

(** X19. Under a Do Not Track signal, when the configuration
    [initializeAnalytics] ends with has a truthy [respectDNT],
    [config.enabled] is off, no script has been added and no call made,
    and tracking does nothing from then on. *)
Theorem do_not_track_respected (JSON_parse : string → completion JValue)
    (nav : Analytics.Navigator) (userConfig : list (string * JValue))
    (w : Analytics.World) :
  Analytics.isDNTEnabled nav = true →
  ∃ w', Analytics.initializeAnalytics JSON_parse nav userConfig w = Normal w' ∧
    (Validation2.truthy (assoc "respectDNT" (Analytics.config w')) = true →
     AnalyticsShape.enabled w' = false ∧
     Analytics.scripts w' = Analytics.scripts w ∧
     Analytics.calls w' = Analytics.calls w ∧
     (∀ url, Analytics.trackPageView nav url w' = w') ∧
     (∀ name properties, Analytics.trackEvent name properties w' = w')).
Proof.
  intros Hnav.
  destruct (initializeAnalytics_result JSON_parse nav userConfig w)
    as (merged & w' & Hinit & _ & _ & Hcases).
  exists w'. split; [exact Hinit|]. intros Hrespect.
  destruct Hcases as [(_ & Hcfg & Hs & Hc) | (Hdnt & Hcfg & _)].
  - assert (AnalyticsShape.enabled w' = false) as Hoff.
    { unfold AnalyticsShape.enabled. by rewrite Hcfg. }
    split; [exact Hoff|]. split; [exact Hs|]. split; [exact Hc|].
    apply untracked. by left.
  - rewrite Hcfg in Hrespect. rewrite Hrespect, Hnav in Hdnt. discriminate.
Qed.

Lemma do_not_track_respected_witness :
  ∃ w', Analytics.initializeAnalytics Samples.parseSample Samples3.navigatorDNT
          [("enabled", JBool true); ("provider", JStr "plausible");
           ("siteId", JStr "wordle.example")] Samples3.start = Normal w' ∧
    AnalyticsShape.enabled w' = false ∧
    Analytics.scripts w' = Analytics.scripts Samples3.start.
Proof.
  destruct (do_not_track_respected Samples.parseSample Samples3.navigatorDNT
              [("enabled", JBool true); ("provider", JStr "plausible");
               ("siteId", JStr "wordle.example")] Samples3.start eq_refl)
    as (w' & Hinit & Hoff).
  exists w'. split; [exact Hinit|].
  destruct Hoff as (Hen & Hscripts & _).
  - vm_compute in Hinit. injection Hinit as <-. reflexivity.
  - by split.
Defined.

(** X20. [revokeConsent] never throws. Afterwards consent is off,
    [config.enabled] is off, no script element matching the tracking
    selector is left while every other script is kept in place, no call
    has been made, and tracking does nothing. When the write to storage
    goes through, the stored consent is "false". *)
Theorem revokeConsent_stops_tracking (nav : Analytics.Navigator) (w : Analytics.World) :
  ∃ w', Analytics.revokeConsent w = Normal w' ∧
    Analytics.hasConsent w' = false ∧
    AnalyticsShape.enabled w' = false ∧
    Analytics.scripts w' =
      filter (λ s, Analytics.tracking_script s = false) (Analytics.scripts w) ∧
    Analytics.calls w' = Analytics.calls w ∧
    (∀ url, Analytics.trackPageView nav url w' = w') ∧
    (∀ name properties, Analytics.trackEvent name properties w' = w') ∧
    (LocalStorage.setItem_throws (Analytics.storage w)
       (LocalStorage.items (Analytics.storage w)) Analytics.CONSENT_KEY "false" = false →
     LocalStorage.items (Analytics.storage w') !! Analytics.CONSENT_KEY = Some "false").
Proof.
  assert (∀ w', AnalyticsShape.enabled w' = false →
                (∀ url, Analytics.trackPageView nav url w' = w') ∧
                (∀ name properties, Analytics.trackEvent name properties w' = w')) as Hoff.
  { intros w' H. apply untracked. by left. }
  unfold Analytics.revokeConsent. rewrite safeSetItem_cases. simpl.
  destruct (LocalStorage.setItem_throws _ _ _ _) eqn:Hthrow; simpl;
    (eexists; split; [reflexivity|]; simpl;
     split; [done|]; split; [done|]; split; [done|]; split; [done|];
     split; [by apply Hoff|]; split; [by apply Hoff|]).
  - discriminate.
  - intros _. apply lookup_insert_eq.
Qed.

Lemma revokeConsent_stops_tracking_witness :
  ∃ w', Analytics.revokeConsent Samples3.tracking = Normal w' ∧
    Analytics.scripts w' = [Analytics.mkScript (Analytics.Url "/build/bundle.js") []] ∧
    LocalStorage.items (Analytics.storage w') !! "analytics-consent" = Some "false".
Proof.
  destruct (revokeConsent_stops_tracking Samples3.navigator Samples3.tracking)
    as (w' & Hrevoke & _ & _ & Hscripts & _ & _ & _ & Hstored).
  exists w'. split; [exact Hrevoke|]. split.
  - rewrite Hscripts. reflexivity.
  - apply Hstored. reflexivity.
Defined.

(** X21. [grantConsent] never throws, and the consent it leaves is the
    one the storage reads back, not the one it set in memory: with a
    storage that never throws consent is held and stored, but when the
    write throws the storage is as before and so is the consent it
    reads back. *)
Theorem grantConsent_needs_storage (JSON_parse : string → completion JValue)
    (nav : Analytics.Navigator) (w : Analytics.World) :
  ∃ w', Analytics.grantConsent JSON_parse nav w = Normal w' ∧
    (Analytics.hasConsent w' = true ↔ AnalyticsShape.consent_stored (Analytics.storage w')) ∧
    (AnalyticsShape.reliable (Analytics.storage w) →
     Analytics.hasConsent w' = true ∧
     LocalStorage.items (Analytics.storage w') !! Analytics.CONSENT_KEY = Some "true") ∧
    (LocalStorage.setItem_throws (Analytics.storage w)
       (LocalStorage.items (Analytics.storage w)) Analytics.CONSENT_KEY "true" = true →
     Analytics.storage w' = Analytics.storage w ∧
     (Analytics.hasConsent w' = true ↔ AnalyticsShape.consent_stored (Analytics.storage w))).
Proof.
  unfold Analytics.grantConsent. rewrite safeSetItem_cases. simpl.
  destruct (LocalStorage.setItem_throws _ _ _ _) eqn:Hthrow; simpl;
    match goal with
    | |- ∃ w', Analytics.initializeAnalytics _ _ _ ?w1 = _ ∧ _ =>
        destruct (initializeAnalytics_result JSON_parse nav [] w1)
          as (merged & w' & Hinit & Hst & Hcon & _)
    end;
    exists w'; (split; [exact Hinit|]); rewrite Hst; simpl in *;
    (split; [exact Hcon|]); split.
  - intros [_ Hset]. rewrite Hset in Hthrow. discriminate.
  - done.
  - intros [Hget _]. split; [|apply lookup_insert_eq].
    apply Hcon. unfold AnalyticsShape.consent_stored.
    rewrite safeGetItem_cases. simpl. unfold LocalStorage.getItem. simpl.
    rewrite Hget. by rewrite lookup_insert_eq.
  - discriminate.
Qed.

Lemma grantConsent_needs_storage_witness :
  ∃ w', Analytics.grantConsent Samples.parseSample Samples3.navigator Samples3.start
          = Normal w' ∧
    Analytics.hasConsent w' = true.
Proof.
  destruct (grantConsent_needs_storage Samples.parseSample Samples3.navigator
              Samples3.start) as (w' & Hgrant & _ & Hreliable & _).
  exists w'. split; [exact Hgrant|]. apply Hreliable. by split.
Defined.

(** X22. Once [revokeConsent] has stored its "false", a later
    [initializeAnalytics] keeps consent off whatever configuration it
    is given: it adds no script, makes no call, and tracking still does
    nothing. *)
Theorem revoked_stays_revoked (JSON_parse : string → completion JValue)
    (nav : Analytics.Navigator) (userConfig : list (string * JValue))
    (w w1 : Analytics.World) :
  Analytics.revokeConsent w = Normal w1 →
  LocalStorage.items (Analytics.storage w1) !! Analytics.CONSENT_KEY = Some "false" →
  ∃ w2, Analytics.initializeAnalytics JSON_parse nav userConfig w1 = Normal w2 ∧
    Analytics.hasConsent w2 = false ∧
    Analytics.scripts w2 = Analytics.scripts w1 ∧
    Analytics.calls w2 = Analytics.calls w1 ∧
    (∀ url, Analytics.trackPageView nav url w2 = w2) ∧
    (∀ name properties, Analytics.trackEvent name properties w2 = w2).
Proof.
  intros _ Hstored.
  destruct (initializeAnalytics_result JSON_parse nav userConfig w1)
    as (merged & w2 & Hinit & Hst & Hcon & Hcases).
  assert (¬ AnalyticsShape.consent_stored (Analytics.storage w1)) as Hno.
  { unfold AnalyticsShape.consent_stored. rewrite safeGetItem_cases. simpl.
    unfold LocalStorage.getItem.
    destruct (LocalStorage.getItem_throws _ _ _); [discriminate|].
    rewrite Hstored. discriminate. }
  assert (Analytics.hasConsent w2 = false) as Hoff.
  { unfold Analytics.hasConsent. destruct (Analytics.consentGiven w2); [|done].
    exfalso. by apply Hno, Hcon. }
  exists w2. split; [exact Hinit|]. split; [exact Hoff|].
  assert (Analytics.scripts w2 = Analytics.scripts w1 ∧
          Analytics.calls w2 = Analytics.calls w1) as [Hs Hc].
  { destruct Hcases as [(_ & _ & ? & ?) | (_ & _ & [?|(Hg & _)])]; try done.
    unfold Analytics.hasConsent in Hoff. congruence. }
  split; [exact Hs|]. split; [exact Hc|]. apply untracked. by right.
Qed.

Lemma revoked_stays_revoked_witness :
  ∃ w1 w2,
    Analytics.revokeConsent Samples3.tracking = Normal w1 ∧
    Analytics.initializeAnalytics Samples.parseSample Samples3.navigator
      [("enabled", JBool true)] w1 = Normal w2 ∧
    Analytics.hasConsent w2 = false ∧
    Analytics.scripts w2 = [Analytics.mkScript (Analytics.Url "/build/bundle.js") []].
Proof.
  eexists.
  destruct (revoked_stays_revoked Samples.parseSample Samples3.navigator
              [("enabled", JBool true)] Samples3.tracking _ eq_refl eq_refl)
    as (w2 & Hinit & Hoff & Hscripts & _).
  exists w2. split; [reflexivity|]. split; [exact Hinit|]. split; [exact Hoff|].
  rewrite Hscripts. reflexivity.
Defined.

(** X23. Without consent, [updateConfig] only merges and saves: each
    key of the new configuration reads back from [getConfig] with its
    new value and every other key keeps its old one; no script is added
    and no call made; and when the write goes through the storage holds
    the text [JSON.stringify] gave for the merged configuration. *)
Theorem updateConfig_without_consent (JSON_parse : string → completion JValue)
    (JSON_stringify : JValue → completion (option string))
    (nav : Analytics.Navigator) (newConfig : list (string * JValue))
    (w : Analytics.World) (text : string) :
  Analytics.hasConsent w = false →
  JSON_stringify (JObj (newConfig ++ Analytics.config w)) = Normal (Some text) →
  ∃ w', Analytics.updateConfig JSON_parse JSON_stringify nav newConfig w = Normal w' ∧
    (∀ k v, (k, v) ∈ newConfig →
       assoc k (Analytics.getConfig w') = assoc k newConfig) ∧
    (∀ k, k ∉ newConfig.*1 →
       assoc k (Analytics.getConfig w') = assoc k (Analytics.getConfig w)) ∧
    Analytics.hasConsent w' = false ∧
    Analytics.scripts w' = Analytics.scripts w ∧
    Analytics.calls w' = Analytics.calls w ∧
    (LocalStorage.setItem_throws (Analytics.storage w)
       (LocalStorage.items (Analytics.storage w)) Analytics.CONFIG_KEY text = false →
     LocalStorage.items (Analytics.storage w') !! Analytics.CONFIG_KEY = Some text).
Proof.
  unfold Analytics.hasConsent. intros Hcon Hstr.
  unfold Analytics.updateConfig. simpl. rewrite Hstr. simpl.
  rewrite safeSetItem_cases. simpl. rewrite Hcon. simpl.
  assert (∀ k, k ∉ newConfig.*1 →
               assoc k (newConfig ++ Analytics.config w) = assoc k (Analytics.config w))
    as Hold.
  { clear Hstr. intros k Hk. induction newConfig as [|[k' v'] l IH]; [done|]. simpl.
    rewrite fmap_cons, not_elem_of_cons in Hk. destruct Hk as [Hne Hk].
    destruct (String.eqb_spec k k'); [done|]. by apply IH. }
  destruct (LocalStorage.setItem_throws _ _ _ _) eqn:Hthrow; simpl;
    (eexists; split; [reflexivity|]; simpl; unfold Analytics.getConfig; simpl;
     split; [intros k v Hin; apply assoc_app; eauto|];
     split; [exact Hold|];
     split; [done|]; split; [done|]; split; [done|]).
  - discriminate.
  - intros _. apply lookup_insert_eq.
Qed.

Lemma updateConfig_without_consent_witness :
  ∃ w', Analytics.updateConfig Samples.parseSample Samples2.stringifySample
          Samples3.navigator [("provider", JStr "fathom")] Samples3.start = Normal w' ∧
    assoc "provider" (Analytics.getConfig w') = JStr "fathom" ∧
    Analytics.scripts w' = Analytics.scripts Samples3.start.
Proof.
  destruct (updateConfig_without_consent Samples.parseSample Samples2.stringifySample
              Samples3.navigator [("provider", JStr "fathom")] Samples3.start
              Samples.savedGameBlob eq_refl eq_refl)
    as (w' & Hupdate & Hnew & _ & _ & Hscripts & _).
  exists w'. split; [exact Hupdate|]. split; [|exact Hscripts].
  rewrite (Hnew "provider" (JStr "fathom")); [reflexivity | set_solver].
Defined.

(** ** Numbers: the order of doubles *)

Section FloatFacts.

Import SpecFloat.

Lemma SFcompare_antisym f1 f2 :
  SFcompare f2 f1 = option_map CompOpp (SFcompare f1 f2).
Proof.
  assert (∀ m1 m2, PosDef.Pos.compare_cont Eq m2 m1
                   = CompOpp (PosDef.Pos.compare_cont Eq m1 m2)) as Hpos.
  { intros m1 m2. change (Pos.compare m2 m1 = CompOpp (Pos.compare m1 m2)).
    apply Pos.compare_antisym. }
  destruct f1 as [s1| s1| |s1 m1 e1], f2 as [s2|s2| |s2 m2 e2]; simpl; try reflexivity;
    try (destruct s1; reflexivity); try (destruct s2; reflexivity);
    try (destruct s1, s2; reflexivity).
  destruct s1, s2; simpl; try reflexivity;
    rewrite (Z.compare_antisym e1 e2); destruct (Z.compare e1 e2); simpl; try reflexivity;
    rewrite Hpos; reflexivity.
Qed.

Lemma float_not_nan x :
  PrimFloat.is_nan x = false ↔ FloatOps.Prim2SF x ≠ S754_nan.
Proof.
  unfold PrimFloat.is_nan. rewrite FloatAxioms.eqb_spec. unfold SFeqb.
  destruct (FloatOps.Prim2SF x) as [s|s| |s m e]; simpl.
  - split; [discriminate | reflexivity].
  - split; [discriminate |]. destruct s; reflexivity.
  - split; [discriminate | congruence].
  - split; [discriminate|]. intros _.
    assert (PosDef.Pos.compare_cont Eq m m = Eq) as Hm by (apply Pos.compare_refl).
    destruct s; rewrite Z.compare_refl, Hm; reflexivity.
Qed.

Lemma float_comparable x y :
  PrimFloat.is_nan x = false → PrimFloat.is_nan y = false →
  ∃ c, SFcompare (FloatOps.Prim2SF x) (FloatOps.Prim2SF y) = Some c.
Proof.
  rewrite !float_not_nan.
  destruct (FloatOps.Prim2SF x), (FloatOps.Prim2SF y); simpl; try congruence; eauto.
Qed.

(** For numbers, not [x < y] means [y <= x]. *)
Lemma float_not_lt x y :
  PrimFloat.is_nan x = false → PrimFloat.is_nan y = false →
  PrimFloat.ltb x y = false → PrimFloat.leb y x = true.
Proof.
  intros Hx Hy. rewrite FloatAxioms.ltb_spec, FloatAxioms.leb_spec.
  unfold SFltb, SFleb. rewrite (SFcompare_antisym (FloatOps.Prim2SF x)).
  destruct (float_comparable x y Hx Hy) as [c ->]. destruct c; simpl; congruence.
Qed.

Lemma float_lt_le x y : PrimFloat.ltb x y = true → PrimFloat.leb x y = true.
Proof.
  rewrite FloatAxioms.ltb_spec, FloatAxioms.leb_spec. unfold SFltb, SFleb.
  destruct (SFcompare _ _) as [[]|]; congruence.
Qed.

Lemma float_le_refl x : PrimFloat.is_nan x = false → PrimFloat.leb x x = true.
Proof.
  intros Hx. apply float_not_lt; try done.
  rewrite FloatAxioms.ltb_spec. unfold SFltb.
  pose proof (SFcompare_antisym (FloatOps.Prim2SF x) (FloatOps.Prim2SF x)) as H.
  destruct (SFcompare _ _) as [[]|]; simpl in H; congruence.
Qed.

(** [Math.max] of two numbers is one of them, not below either. *)
Lemma Math_max_spec a b :
  PrimFloat.is_nan a = false → PrimFloat.is_nan b = false →
  PrimFloat.is_nan (Validation2.Math_max a b) = false ∧
  PrimFloat.leb a (Validation2.Math_max a b) = true ∧
  PrimFloat.leb b (Validation2.Math_max a b) = true.
Proof.
  intros Ha Hb. unfold Validation2.Math_max. rewrite Ha, Hb. simpl.
  destruct (PrimFloat.ltb a b) eqn:Hab.
  { split; [done|]. split; [by apply float_lt_le | by apply float_le_refl]. }
  destruct (PrimFloat.ltb b a) eqn:Hba.
  { split; [done|]. split; [by apply float_le_refl | by apply float_lt_le]. }
  destruct (PrimFloat.get_sign a);
    (split; [done|]); split;
    first [ by apply float_le_refl | by apply float_not_lt ].
Qed.

(** [Math.min] of two numbers is one of them, not above either. *)
Lemma Math_min_spec a b :
  PrimFloat.is_nan a = false → PrimFloat.is_nan b = false →
  PrimFloat.is_nan (Validation2.Math_min a b) = false ∧
  (Validation2.Math_min a b = a ∨ Validation2.Math_min a b = b) ∧
  PrimFloat.leb (Validation2.Math_min a b) a = true ∧
  PrimFloat.leb (Validation2.Math_min a b) b = true.
Proof.
  intros Ha Hb. unfold Validation2.Math_min. rewrite Ha, Hb. simpl.
  destruct (PrimFloat.ltb a b) eqn:Hab.
  { split; [done|]. split; [by left|].
    split; [by apply float_le_refl | by apply float_lt_le]. }
  destruct (PrimFloat.ltb b a) eqn:Hba.
  { split; [done|]. split; [by right|].
    split; [by apply float_lt_le | by apply float_le_refl]. }
  destruct (PrimFloat.get_sign a);
    (split; [done|]); (split; [by (left + right)|]); split;
    first [ by apply float_le_refl | by apply float_not_lt ].
Qed.

End FloatFacts.

(** X24. [clamp] gives NaN as soon as one of its three arguments is
    NaN. On numbers its result is a number that never exceeds [max],
    and when [min <= max] it is not below [min] either. *)
Theorem clamp_within_bounds (value min max : float) :
  (PrimFloat.is_nan value || PrimFloat.is_nan min || PrimFloat.is_nan max = true →
   PrimFloat.is_nan (Validation2.clamp value min max) = true) ∧
  (PrimFloat.is_nan value = false → PrimFloat.is_nan min = false →
   PrimFloat.is_nan max = false →
   PrimFloat.is_nan (Validation2.clamp value min max) = false ∧
   PrimFloat.leb (Validation2.clamp value min max) max = true ∧
   (PrimFloat.leb min max = true →
    PrimFloat.leb min (Validation2.clamp value min max) = true)).
Proof.
  unfold Validation2.clamp. split.
  - intros Hnan. unfold Validation2.Math_min, Validation2.Math_max.
    destruct (PrimFloat.is_nan value), (PrimFloat.is_nan min); simpl in *;
      try reflexivity.
    rewrite Hnan, orb_true_r. reflexivity.
  - intros Hv Hlo Hhi.
    destruct (Math_max_spec value min Hv Hlo) as (Hm & _ & Hlom).
    destruct (Math_min_spec _ max Hm Hhi) as (Hr & Hwhich & _ & Hrhi).
    split; [exact Hr|]. split; [exact Hrhi|].
    intros Hlohi. by destruct Hwhich as [-> | ->].
Qed.

Lemma clamp_within_bounds_witness :
  Validation2.clamp 7 0 6 = 6%float ∧
  PrimFloat.leb 0 (Validation2.clamp 7 0 6) = true.
Proof.
  split; [reflexivity|].
  destruct (clamp_within_bounds 7 0 6) as [_ Hbounds].
  destruct (Hbounds eq_refl eq_refl eq_refl) as (_ & _ & Hlow).
  apply Hlow. reflexivity.
Defined.

(** ** Examples of the properties above *)

Lemma sanitizeWordInput_capitals_witness :
  Validation2.sanitizeWordInput (JStr "  HeLLo123!  ") = "HELLO" ∧
  String.length (Validation2.sanitizeWordInput (JStr "  HeLLo123!  "))
    = length (Shape2.letters "  HeLLo123!  ").
Proof.
  split; [reflexivity|].
  destruct (sanitizeWordInput_capitals (JStr "  HeLLo123!  ")) as (_ & _ & Hlen & _).
  apply Hlen. reflexivity.
Defined.

Lemma safeSetItem_all_or_nothing_witness :
  ∃ ok ls', LocalStorage.safeSetItem Samples.brokenStorage (JStr "mode") (JStr "1")
              = Normal (ok, ls') ∧
    ls' = Samples.brokenStorage.
Proof.
  destruct (safeSetItem_all_or_nothing Samples.brokenStorage (JStr "mode") (JStr "1"))
    as (ok & ls' & Hset & Hfail & _).
  exists ok, ls'. split; [exact Hset|]. apply Hfail.
  vm_compute in Hset. by injection Hset as <- _.
Defined.

Lemma safeRemoveItem_removes_witness :
  ∃ ok ls', LocalStorage2.safeRemoveItem Samples2.noFaults Samples.storage (JStr "state-0")
              = Normal (ok, ls') ∧
    LocalStorage.safeGetItem ls' (JStr "state-0") (Some "fresh") = Normal (Some "fresh").
Proof.
  destruct (safeRemoveItem_removes Samples2.noFaults Samples.storage (JStr "state-0"))
    as (ok & ls' & Hremove & _ & Hgone).
  exists ok, ls'. split; [exact Hremove|]. apply Hgone.
  vm_compute in Hremove. by injection Hremove as <- _.
Defined.

Lemma safeClear_clears_witness :
  ∃ ok ls', LocalStorage2.safeClear Samples2.noFaults Samples.storage = Normal (ok, ls') ∧
    LocalStorage.safeGetItem ls' (JStr "state-0") None = Normal None.
Proof.
  destruct (safeClear_clears Samples2.noFaults Samples.storage)
    as (ok & ls' & Hclear & _ & Hgone).
  exists ok, ls'. split; [exact Hclear|]. apply Hgone.
  vm_compute in Hclear. by injection Hclear as <- _.
Defined.

(** X25. The analytics section [mergeConfig] builds takes [enabled] and
    [provider] from the build environment whatever the custom
    configuration says. So when [VITE_ANALYTICS_ENABLED] is not the
    text "true", the [initializeAnalytics] call of main.ts leaves
    analytics off: no script is added, no call made, and tracking does
    nothing, even with consent and an enabling configuration in
    storage. *)
Theorem analytics_off_unless_built_in (env : string → JValue)
    (custom : option (list (string * JValue)))
    (JSON_parse : string → completion JValue) (nav : Analytics.Navigator)
    (w : Analytics.World) :
  let merged := MonitoringConfig.mergeConfig_analytics env custom in
  assoc "enabled" merged
    = JBool (MonitoringConfig.is_true_text (env "VITE_ANALYTICS_ENABLED")) ∧
  assoc "provider" merged
    = (if Validation2.truthy (env "VITE_ANALYTICS_PROVIDER")
       then env "VITE_ANALYTICS_PROVIDER" else JStr "none") ∧
  (MonitoringConfig.is_true_text (env "VITE_ANALYTICS_ENABLED") = false →
   ∃ w', Analytics.initializeAnalytics JSON_parse nav merged w = Normal w' ∧
     AnalyticsShape.enabled w' = false ∧
     Analytics.scripts w' = Analytics.scripts w ∧
     Analytics.calls w' = Analytics.calls w ∧
     (∀ url, Analytics.trackPageView nav url w' = w') ∧
     (∀ name properties, Analytics.trackEvent name properties w' = w')).
Proof.
  cbn zeta. split; [reflexivity|]. split; [reflexivity|]. intros Hoff.
  destruct (initializeAnalytics_cases JSON_parse nav
              (MonitoringConfig.mergeConfig_analytics env custom) w)
    as (stored & given & _ & ->).
  eexists. split; [reflexivity|]. cbn zeta.
  set (config2 := MonitoringConfig.mergeConfig_analytics env custom ++ stored
                  ++ Analytics.config w).
  assert (Validation2.truthy (assoc "enabled" config2) = false) as Hen.
  { unfold config2, MonitoringConfig.mergeConfig_analytics, MonitoringConfig.envAnalytics.
    simpl. by rewrite Hoff. }
  rewrite Hen. simpl.
  assert (∀ w', AnalyticsShape.enabled w' = false →
                Analytics.scripts w' = Analytics.scripts w →
                Analytics.calls w' = Analytics.calls w →
                AnalyticsShape.enabled w' = false ∧
                Analytics.scripts w' = Analytics.scripts w ∧
                Analytics.calls w' = Analytics.calls w ∧
                (∀ url, Analytics.trackPageView nav url w' = w') ∧
                (∀ name properties, Analytics.trackEvent name properties w' = w'))
    as Hwrap.
  { intros w' H1 H2 H3.
    destruct (untracked nav w' (or_introl H1)) as [Hpage Hevent]. done. }
  destruct (_ && Analytics.isDNTEnabled nav); apply Hwrap; try done.
Qed.

Lemma analytics_off_unless_built_in_witness :
  assoc "provider"
    (MonitoringConfig.mergeConfig_analytics (λ _, JUndefined)
       (Some [("enabled", JBool true); ("provider", JStr "plausible");
              ("siteId", JStr "wordle.example")])) = JStr "none" ∧
  ∃ w', Analytics.initializeAnalytics Samples.parseSample Samples3.navigator
          (MonitoringConfig.mergeConfig_analytics (λ _, JUndefined)
             (Some [("enabled", JBool true); ("provider", JStr "plausible");
                    ("siteId", JStr "wordle.example")]))
          Samples3.tracking = Normal w' ∧
    AnalyticsShape.enabled w' = false ∧
    Analytics.scripts w' = Analytics.scripts Samples3.tracking.
Proof.
  destruct (analytics_off_unless_built_in (λ _, JUndefined)
              (Some [("enabled", JBool true); ("provider", JStr "plausible");
                     ("siteId", JStr "wordle.example")])
              Samples.parseSample Samples3.navigator Samples3.tracking)
    as (_ & Hprovider & Hoff).
  split; [exact Hprovider|].
  destruct (Hoff eq_refl) as (w' & Hinit & Hen & Hscripts & _).
  exists w'. by repeat split.
Defined.

(** ** Start-up: the deep link and the word of the mode *)

Section StartupFacts.

Import LocalStorage Startup.

Lemma float_lt_is_number x y : (x <? y)%float = true → PrimFloat.is_nan x = false.
Proof.
  intros Hlt. apply float_not_nan. intros Hnan.
  rewrite FloatAxioms.ltb_spec, Hnan in Hlt. discriminate.
Qed.

(** The deep-link block, case by case. *)
Lemma deepLink_cases getWordNumber md m mo current w :
  mode_entry md m = Normal mo →
  getWordNumber m = Normal current →
  deepLink getWordNumber md m w =
  Normal (if (w <? current)%float then
            mkModeData (default md)
              (<[App.mode_number m :=
                   mkMode (unit_ mo) (start mo)
                          ((w - 1) * unit_ mo + start mo)%float true]> (modes md))
          else md).
Proof.
  intros Hmo Hcurrent. unfold deepLink.
  destruct (PrimFloat.is_nan w) eqn:Hnan; simpl.
  - destruct (w <? current)%float eqn:Hlt; [|done].
    apply float_lt_is_number in Hlt. congruence.
  - rewrite Hcurrent. simpl. destruct (w <? current)%float; [|done].
    by rewrite Hmo.
Qed.

(** The entry a link has been accepted for. *)
Lemma accepted_entry md m mo s :
  mode_entry md m = Normal mo →
  mode_entry (mkModeData (default md)
                (<[App.mode_number m := mkMode (unit_ mo) (start mo) s true]> (modes md))) m
  = Normal (mkMode (unit_ mo) (start mo) s true).
Proof.
  intros Hmo. unfold mode_entry in *. simpl.
  destruct (modes md !! App.mode_number m) eqn:E; [|discriminate].
  apply lookup_lt_Some in E. by rewrite list_lookup_insert_eq.
Qed.


(** On integral mode data the callback of [Startup] is the callback of
    [App], run with the first draw of the re-seeded generator, and
    leaves the generator one draw after the seeding. *)
Lemma subscribe_agrees gen num words md m ls g :
  subscribe gen words (of_integers num md) m (ls, g) =
  (x ← App.subscribe (first_draw gen num) words md ls m;
   mo ← App.mode_entry md m;
   mret (x.1, (x.2, snd (draw gen (reseed gen (num (App.seed mo))))))).
Proof.
  unfold subscribe, App.subscribe.
  destruct (safeSetItem_frame ls (JStr "mode") (JStr (pretty (App.mode_number m))))
    as (ok & ls1 & -> & _).
  simpl. rewrite (safeGetItem_cases ls1 (JStr (App.stats_key m))). simpl.
  unfold mode_entry, App.mode_entry, of_integers. simpl.
  rewrite list_lookup_fmap.
  destruct (App.modes md !! App.mode_number m) as [mo|]; simpl; [|done].
  unfold wordAt, App.wordAt, seededRandomInt, App.seededRandomInt, first_draw.
  destruct (draw gen (reseed gen (num (App.seed mo)))) as [q g1].
  destruct (App.historical mo); rewrite !safeGetItem_cases; reflexivity.
Qed.

End StartupFacts.



(** C2, as the claim states it, fails: the link [#daily/0] carries the
    word number 0, below 1, and is accepted. The seed becomes one unit
    before [start] and the mode turns historical. *)
Lemma deepLink_accepts_word_zero :
  (0 <? 1)%float = true ∧
  Startup.deepLink Samples4.getWordNumber Samples4.modeData App.daily 0 =
    Normal (Startup.mkModeData App.daily
              [Startup.mkMode 86400000 1642370400000 1642284000000 true;
               Startup.mkMode 3600000 1642528800000 1699999200000 false;
               Startup.mkMode 1000 1642428600000 1700000000000 false]) ∧
  Startup.deepLink Samples4.getWordNumber Samples4.modeData App.daily 0 ≠
    Normal Samples4.modeData.
Proof. split; [reflexivity|]. split; [reflexivity | vm_compute; discriminate]. Qed.

(** Nor does the block ask for a whole number: [#daily/1.5] is accepted,
    with a seed half a day after [start], and so is [#daily/-Infinity],
    whose seed is minus infinity. *)
Lemma deepLink_accepts_fraction_and_infinity :
  (∃ md', Startup.deepLink Samples4.getWordNumber Samples4.modeData App.daily 1.5
            = Normal md' ∧
     Startup.mode_entry md' App.daily
       = Normal (Startup.mkMode 86400000 1642370400000 1642413600000 true)) ∧
  (∃ md', Startup.deepLink Samples4.getWordNumber Samples4.modeData App.daily
            neg_infinity = Normal md' ∧
     Startup.mode_entry md' App.daily
       = Normal (Startup.mkMode 86400000 1642370400000 neg_infinity true)).
Proof. split; eexists; split; reflexivity. Qed.

(** The seed of a far-away link is the rounded double the script
    computes, not the exact integer: for [#daily/-100000000000] the
    exact value would be -8639998357716000000. *)
Lemma deepLink_seed_is_a_double :
  ∃ md', Startup.deepLink Samples4.getWordNumber Samples4.modeData App.daily
           (-100000000000) = Normal md' ∧
    Startup.mode_entry md' App.daily
      = Normal (Startup.mkMode 86400000 1642370400000 (-8639998357715999744) true).
Proof. eexists. split; reflexivity. Qed.

(** C2, amended. A deep link with the number [w] is accepted exactly
    when [w] is below the mode's current word number, in the order of
    doubles; there is no lower bound and the number need not be whole.
    An accepted link sets the seed to [(w - 1) * unit + start], computed
    in doubles, and sets the historical flag; [unit], [start], the
    default mode and the other modes are left alone. A link that
    carries no number, or a number not below the current word number,
    leaves the mode data unchanged. *)
Theorem deepLink_historical (getWordNumber : App.GameMode → completion float)
    (md : Startup.ModeData) (m : App.GameMode) (mo : Startup.Mode)
    (current w : float) :
  Startup.mode_entry md m = Normal mo →
  getWordNumber m = Normal current →
  ∃ md', Startup.deepLink getWordNumber md m w = Normal md' ∧
    ((w <? current)%float = true →
       Startup.mode_entry md' m
         = Normal (Startup.mkMode (Startup.unit_ mo) (Startup.start mo)
                     ((w - 1) * Startup.unit_ mo + Startup.start mo)%float true) ∧
       Startup.default md' = Startup.default md ∧
       ∀ m', m' ≠ m → Startup.mode_entry md' m' = Startup.mode_entry md m') ∧
    ((w <? current)%float = false → md' = md) ∧
    (PrimFloat.is_nan w = true → md' = md).
Proof.
  intros Hmo Hcurrent. rewrite (deepLink_cases getWordNumber md m mo current w Hmo Hcurrent).
  eexists. split; [reflexivity|]. split; [|split].
  - intros ->. split; [by apply accepted_entry|]. split; [done|].
    intros m' Hm'. unfold Startup.mode_entry. simpl.
    rewrite list_lookup_insert_ne; [done|].
    destruct m, m'; simpl; congruence.
  - by intros ->.
  - intros Hnan. destruct (w <? current)%float eqn:Hlt; [|done].
    apply float_lt_is_number in Hlt. congruence.
Qed.

Lemma deepLink_historical_witness :
  ∃ md', Startup.deepLink Samples4.getWordNumber Samples4.modeData App.daily 5 = Normal md' ∧
    Startup.mode_entry md' App.daily =
      Normal (Startup.mkMode 86400000 1642370400000 1642716000000 true).
Proof.
  destruct (deepLink_historical Samples4.getWordNumber Samples4.modeData App.daily
              (Startup.mkMode 86400000 1642370400000 1699999200000 false) 668 5)
    as (md' & Hlink & Haccept & _); [reflexivity | reflexivity |].
  exists md'. split; [exact Hlink|].
  destruct (Haccept eq_refl) as (Hentry & _). exact Hentry.
Defined.


